(** * The stack navigator of navigation-ex: a model of its component glue
      and of the data contracts declared in [packages/stack/src/types.tsx].

    The definitions come first.  [Navigator] embeds the function component
    [StackNavigator] (navigators/createStackNavigator.tsx): its tab-press
    effect and the element it renders.  [Ts] is a small description
    language for TypeScript types, with a checker that says which
    JavaScript values inhabit a described type, and [StackTypes]
    transcribes the declarations of [types.tsx] into it.  [StackView] and
    [Gesture] model, from the specification, two pieces of the views that
    consume those types.  [Component] continues the navigator: the props
    it keeps and passes on, the element it renders, and its effect over
    the renders of a mounted component.  The properties follow, module by
    module. *)

From Stdlib Require Import ZArith.
From stdpp Require Import base strings list gmap.

Open Scope Z_scope.

(** ** JavaScript values *)

(** Numbers are kept to the integers: the code below only asks whether a
    value is a number and compares numbers with the literals [0] and [1].
    An [Animated.Node] is represented by the value it currently holds.
    Functions and objects of types declared by other packages are opaque;
    [VForeignObject] is an object that another package made, of the type
    it is named after, together with the members it carries. *)
#[warnings="-register-all"]
Inductive Val : Type :=
| VUndefined
| VNull
| VBool (b : bool)
| VNum (n : Z)
| VStr (s : string)
| VNode (current : Val)
| VFun
| VForeign (type_name : string)
| VArray (elems : list Val)
| VObject (fields : gmap string Val)
| VForeignObject (type_name : string) (fields : gmap string Val).

(** [v !== b] for a boolean literal [b]: strict inequality never converts,
    so only a boolean operand can be equal to [b]. *)
Definition strict_neq_bool (v : Val) (b : bool) : bool :=
  match v with
  | VBool b' => negb (Bool.eqb b' b)
  | _ => true
  end.

(** ** The navigator component (navigators/createStackNavigator.tsx) *)

Module Navigator.

(** The part of the router's [StackNavigationState] that the component
    reads: [state.key] and [state.index]. *)
Record StackNavigationState : Type := {
  key : string;
  index : Z
}.

(** The closure handed to [requestAnimationFrame] on line 52.  It captures
    the [state] of the render that installed the effect, the constant
    [isFocused] computed when the event arrived, and the event object [e]
    (by reference: an address in [events]). *)
Record FrameCallback : Type := {
  cb_state : StackNavigationState;
  cb_isFocused : bool;
  cb_event : nat
}.

(** Everything the effect can observe or change.
    - [focused]: what [navigation.isFocused()] answers now;
    - [events]: the event objects created so far, each reduced to its
      [defaultPrevented] flag; listeners of one event share one cell;
    - [frames]: callbacks waiting for the next animation frame;
    - [dispatched]: the actions passed to [navigation.dispatch], oldest
      first. *)
Record World : Type := {
  focused : bool;
  events : list bool;
  frames : list FrameCallback;
  dispatched : list (gmap string Val)
}.

Definition set_focused (b : bool) (w : World) : World :=
  {| focused := b; events := events w; frames := frames w;
     dispatched := dispatched w |}.

(** [e.preventDefault()] *)
Definition preventDefault (e : nat) (w : World) : World :=
  {| focused := focused w; events := <[e := true]> (events w);
     frames := frames w; dispatched := dispatched w |}.

(** [e.defaultPrevented]; every address handed out by [emit] is allocated,
    so the default is never reached from there. *)
Definition defaultPrevented (e : nat) (w : World) : bool :=
  default false (events w !! e).

Definition requestAnimationFrame (cb : FrameCallback) (w : World) : World :=
  {| focused := focused w; events := events w; frames := frames w ++ [cb];
     dispatched := dispatched w |}.

Definition dispatch (a : gmap string Val) (w : World) : World :=
  {| focused := focused w; events := events w; frames := frames w;
     dispatched := dispatched w ++ [a] |}.

(** What another [tabPress] listener may do to the things the navigator
    reads: call [preventDefault] on the event, and move focus. *)
Record UserListener : Type := {
  callsPreventDefault : bool;
  changesFocusTo : option bool
}.

Inductive Listener : Type :=
| StackTabPress (st : StackNavigationState)
| User (u : UserListener).

Section WithRouter.

(** The object returned by [StackActions.popToTop()] of
    [@react-navigation/routers]. *)
Variable popToTop : gmap string Val.

(** [{ ...StackActions.popToTop(), target: state.key }] *)
Definition resetAction (st : StackNavigationState) : gmap string Val :=
  <["target" := VStr (key st)]> popToTop.

(** Lines 52-61: the body of the frame callback. *)
Definition frameCallback (cb : FrameCallback) (w : World) : World :=
  if (0 <? index (cb_state cb)) && cb_isFocused cb
     && negb (defaultPrevented (cb_event cb) w)
  then dispatch (resetAction (cb_state cb)) w
  else w.

(** Lines 47-62: the listener installed for ['tabPress']. *)
Definition tabPressListener (st : StackNavigationState) (e : nat)
    (w : World) : World :=
  let isFocused := focused w in
  requestAnimationFrame
    {| cb_state := st; cb_isFocused := isFocused; cb_event := e |} w.

(** Lines 44-64: the effect subscribes only when [navigation.addListener]
    is there. *)
Definition useEffect (addListener : bool) (st : StackNavigationState)
    (listeners : list Listener) : list Listener :=
  if addListener then listeners ++ [StackTabPress st] else listeners.

Definition runUser (u : UserListener) (e : nat) (w : World) : World :=
  let w1 := if callsPreventDefault u then preventDefault e w else w in
  match changesFocusTo u with
  | Some b => set_focused b w1
  | None => w1
  end.

Definition runListener (l : Listener) (e : nat) (w : World) : World :=
  match l with
  | StackTabPress st => tabPressListener st e w
  | User u => runUser u e w
  end.

(** Modelled from the spec: event emission of the navigation core, which
    is not among the sources.  "emit(eventKind, payload) notifies all
    current subscribers synchronously in registration order"; every
    emission creates one event object, not yet prevented. *)
Definition emit (listeners : list Listener) (w : World) : World :=
  let e := length (events w) in
  foldl (fun w l => runListener l e w)
    {| focused := focused w; events := events w ++ [false];
       frames := frames w; dispatched := dispatched w |}
    listeners.

(** The platform's next animation frame: the waiting callbacks run in the
    order they were requested. *)
Definition runFrame (w : World) : World :=
  foldl (fun w cb => frameCallback cb w)
    {| focused := focused w; events := events w; frames := [];
       dispatched := dispatched w |}
    (frames w).

(** Lines 66-78: the rendered element, reduced to the [enabled] prop of
    [KeyboardManager]. *)
Definition keyboardManagerEnabled (keyboardHandlingEnabled : Val) : bool :=
  strict_neq_bool keyboardHandlingEnabled false.

End WithRouter.

(** *** Vocabulary for the statements about a tab press *)

(** The focus seen by a listener that runs after the listeners [us]. *)
Definition focusAfter (us : list UserListener) (f : bool) : bool :=
  foldl (fun f u => default f (changesFocusTo u)) f us.

Definition anyPrevents (us : list UserListener) : bool :=
  existsb callsPreventDefault us.

(** The listeners of a tab press: those registered before the navigator's
    own, the navigator's, and those registered after it. *)
Definition tabPressListeners (pre : list UserListener)
    (st : StackNavigationState) (post : list UserListener) : list Listener :=
  (User <$> pre) ++ StackTabPress st :: (User <$> post).

(** The flags of the event objects once a listener has, or has not, called
    [preventDefault] on event [e]. *)
Definition mark (b : bool) (e : nat) (flags : list bool) : list bool :=
  if b then <[e := true]> flags else flags.

(** The decision taken in the frame after a tab press. *)
Definition resets (pre : list UserListener) (st : StackNavigationState)
    (post : list UserListener) (w : World) : bool :=
  (0 <? index st) && focusAfter pre (focused w)
  && negb (anyPrevents (pre ++ post)).

(** A router, a navigator two screens deep and a focused, idle world, for
    the examples. *)
Definition popToTopAction : gmap string Val := {["type" := VStr "POP_TO_TOP"]}.

Definition deepStack : StackNavigationState :=
  {| key := "stack-1"; index := 2 |}.

Definition idleWorld : World :=
  {| focused := true; events := []; frames := []; dispatched := [] |}.

Definition preventer : UserListener :=
  {| callsPreventDefault := true; changesFocusTo := None |}.

End Navigator.

(** ** A description language for the declarations of types.tsx *)

Module Ts.

(** TypeScript types.  A member of an object type and a parameter of a
    function type are given by name, whether marked optional ([?]), and
    type.  [TRef] names a declaration of types.tsx that the declaration at
    hand takes part in defining (the declarations are recursive through
    [StackNavigationOptions]); [TExternal] names a type of another package
    and [TExternalObject] an object type of another package that a
    declaration here adds members to; [TObjectKw] is the type [object];
    [TRecord k t] is [Record<k, t>]; [TNode t] is [Animated.Node<t>];
    [TGeneric x b t] is a signature with its own type parameter,
    [<x extends b>t]; [TRestFun a r] is [(...args: a) => r]; [TDict t] is
    [{ [key: string]: t }]. *)
#[warnings="-register-all"]
Inductive Ty : Type :=
| TAny
| TVoid
| TUndefined
| TBoolean
| TNumber
| TString
| TStrLit (s : string)
| TNumLit (n : Z)
| TRef (name : string)
| TParam (name : string)
| TGeneric (param : string) (bound : Ty) (body : Ty)
| TKeyof (object : Ty)
| TExternal (name : string) (args : list Ty)
| TExternalObject (name : string) (args : list Ty)
| TObjectKw
| TRecord (key value : Ty)
| TNode (value : Ty)
| TIndexed (object key : Ty)
| TObject (members : list (string * (bool * Ty)))
| TDict (value : Ty)
| TUnion (alternatives : list Ty)
| TInter (parts : list Ty)
| TTuple (elems : list Ty)
| TFun (params : list (string * (bool * Ty))) (result : Ty)
| TRestFun (args : Ty) (result : Ty)
| TCond (check extends yes no : Ty).

Definition req (name : string) (t : Ty) : string * (bool * Ty) :=
  (name, (false, t)).
Definition opt (name : string) (t : Ty) : string * (bool * Ty) :=
  (name, (true, t)).

Definition members_of (t : Ty) : list (string * (bool * Ty)) :=
  match t with
  | TObject ms => ms
  | _ => []
  end.

Definition member_names (t : Ty) : list string := (members_of t).*1.

Fixpoint find_member (name : string) (ms : list (string * (bool * Ty)))
    : option (bool * Ty) :=
  match ms with
  | [] => None
  | (n, m) :: ms' => if String.eqb n name then Some m else find_member name ms'
  end.

Definition member (t : Ty) (name : string) : option (bool * Ty) :=
  find_member name (members_of t).

(** [Partial<T>] for an object type [T]. *)
Definition Partial (t : Ty) : Ty :=
  match t with
  | TObject ms => TObject (map (fun m => (m.1, (true, m.2.2))) ms)
  | _ => t
  end.

(** [t] with the type parameter [x] replaced by [a]. *)
Fixpoint subst (x : string) (a : Ty) (t : Ty) : Ty :=
  match t with
  | TParam y => if String.eqb x y then a else t
  | TGeneric y b t' =>
      if String.eqb x y then TGeneric y (subst x a b) t'
      else TGeneric y (subst x a b) (subst x a t')
  | TKeyof t' => TKeyof (subst x a t')
  | TExternal n args => TExternal n (map (subst x a) args)
  | TExternalObject n args => TExternalObject n (map (subst x a) args)
  | TRecord k t' => TRecord (subst x a k) (subst x a t')
  | TNode t' => TNode (subst x a t')
  | TIndexed o k => TIndexed (subst x a o) (subst x a k)
  | TObject ms => TObject (map (fun m => (m.1, (m.2.1, subst x a m.2.2))) ms)
  | TDict t' => TDict (subst x a t')
  | TUnion ts => TUnion (map (subst x a) ts)
  | TInter ts => TInter (map (subst x a) ts)
  | TTuple ts => TTuple (map (subst x a) ts)
  | TFun ps r =>
      TFun (map (fun m => (m.1, (m.2.1, subst x a m.2.2))) ps) (subst x a r)
  | TRestFun args r => TRestFun (subst x a args) (subst x a r)
  | TCond c e y n =>
      TCond (subst x a c) (subst x a e) (subst x a y) (subst x a n)
  | _ => t
  end.

Definition is_any (t : Ty) : bool :=
  match t with
  | TAny => true
  | _ => false
  end.

(** A union with [any] among its alternatives is [any]. *)
Definition is_top (t : Ty) : bool :=
  match t with
  | TAny => true
  | TUnion ts => existsb is_any ts
  | _ => false
  end.

(** Whether a type is assignable to another, for the types that occur as
    keys and as type arguments: [any], [string], [number], [boolean],
    [undefined], literals, and unions of these.  Anything else is taken
    as not assignable. *)
Definition assignable_basic (a b : Ty) : bool :=
  match b with
  | TAny => true
  | TString => match a with TString | TStrLit _ => true | _ => false end
  | TNumber => match a with TNumber | TNumLit _ => true | _ => false end
  | TBoolean => match a with TBoolean => true | _ => false end
  | TUndefined => match a with TUndefined => true | _ => false end
  | TStrLit s => match a with TStrLit s' => String.eqb s s' | _ => false end
  | TNumLit n => match a with TNumLit n' => Z.eqb n n' | _ => false end
  | _ => false
  end.

Definition assignable_atom (a b : Ty) : bool :=
  match b with
  | TUnion bs => existsb (assignable_basic a) bs
  | _ => assignable_basic a b
  end.

Definition assignable (a b : Ty) : bool :=
  match a with
  | TAny => true
  | TUnion alts => forallb (fun a' => assignable_atom a' b) alts
  | _ => assignable_atom a b
  end.

(** The types of the members named by the string literals [ks]. *)
Fixpoint find_members (ms : list (string * (bool * Ty))) (ks : list Ty)
    : option (list Ty) :=
  match ks with
  | [] => Some []
  | TStrLit s :: ks' =>
      match find_member s ms, find_members ms ks' with
      | Some (_, t), Some ts => Some (t :: ts)
      | _, _ => None
      end
  | _ :: _ => None
  end.

(** Evaluation of the type operators.  [keyof T] is the union of the
    member names of an object type [T], the key type of a [Record], and
    [string | number] for an index signature.  [T[K]] is looked up when
    [T] is an object type and [K] a string literal or a union of string
    literals, and is the value type of a [Record] or an index signature
    when [K] is assignable to its keys.  [C extends E ? Y : N] is [Y]
    when [E] is [any] (everything is assignable to [any]), and the union
    of both branches when the checked type [C] is itself [any]; with any
    other [E] the conditional is left as it is. *)
Fixpoint resolve (t : Ty) : Ty :=
  match t with
  | TGeneric x b t' => TGeneric x (resolve b) (resolve t')
  | TKeyof t' =>
      match resolve t' with
      | TObject ms => TUnion (map (fun m => TStrLit m.1) ms)
      | TRecord k _ => k
      | TDict _ => TUnion [TString; TNumber]
      | o => TKeyof o
      end
  | TExternal n args => TExternal n (map resolve args)
  | TExternalObject n args => TExternalObject n (map resolve args)
  | TRecord k t' => TRecord (resolve k) (resolve t')
  | TNode t' => TNode (resolve t')
  | TIndexed o k =>
      match resolve o, resolve k with
      | TObject ms, TStrLit s =>
          match find_member s ms with
          | Some (_, t') => t'
          | None => TIndexed (TObject ms) (TStrLit s)
          end
      | TObject ms, TUnion ks =>
          match find_members ms ks with
          | Some ts => TUnion ts
          | None => TIndexed (TObject ms) (TUnion ks)
          end
      | TRecord kk t', k' =>
          if assignable k' kk then t' else TIndexed (TRecord kk t') k'
      | TDict t', k' =>
          if assignable k' (TUnion [TString; TNumber]) then t'
          else TIndexed (TDict t') k'
      | o', k' => TIndexed o' k'
      end
  | TObject ms => TObject (map (fun m => (m.1, (m.2.1, resolve m.2.2))) ms)
  | TDict t' => TDict (resolve t')
  | TUnion ts => TUnion (map resolve ts)
  | TInter ts => TInter (map resolve ts)
  | TTuple ts => TTuple (map resolve ts)
  | TFun ps r =>
      TFun (map (fun m => (m.1, (m.2.1, resolve m.2.2))) ps) (resolve r)
  | TRestFun a r => TRestFun (resolve a) (resolve r)
  | TCond c e y n =>
      if is_top (resolve e)
      then if is_any (resolve c) then TUnion [resolve y; resolve n]
           else resolve y
      else TCond (resolve c) (resolve e) (resolve y) (resolve n)
  | _ => t
  end.


Definition is_undefined (v : Val) : bool :=
  match v with
  | VUndefined => true
  | _ => false
  end.

(** The members that a value carries, when it is an object. *)
Definition fields_of (v : Val) : option (gmap string Val) :=
  match v with
  | VObject fs | VForeignObject _ fs => Some fs
  | _ => None
  end.

Definition has_field (fs : gmap string Val) (n : string) : bool :=
  match fs !! n with
  | Some _ => true
  | None => false
  end.

Definition no_fields (fs : gmap string Val) : bool :=
  match map_to_list fs with
  | [] => true
  | _ :: _ => false
  end.

(** An object type is weak when it has members and all of them are
    optional; an intersection is weak when all its parts are. *)
Definition weak_members (ms : list (string * (bool * Ty))) : bool :=
  match ms with
  | [] => false
  | _ :: _ => forallb (fun m => m.2.1) ms
  end.

Definition is_weak (t : Ty) : bool :=
  match t with
  | TObject ms => weak_members ms
  | _ => false
  end.

(** What the compiler asks of an object that is given where a weak type
    is expected: to have no member at all, or at least one of the
    members that the type declares. *)
Definition shares (names : list string) (fs : gmap string Val) : bool :=
  no_fields fs || existsb (has_field fs) names.

Definition weak_ok (ms : list (string * (bool * Ty)))
    (fs : gmap string Val) : bool :=
  negb (weak_members ms) || shares ms.*1 fs.

Definition inter_weak_ok (ts : list Ty) (v : Val) : bool :=
  negb (match ts with [] => false | _ :: _ => forallb is_weak ts end)
  || match fields_of v with
     | Some fs => shares (ts ≫= member_names) fs
     | None => true
     end.

(** Which values inhabit a type.  Object types are open (further fields
    are allowed), except that a weak type refuses an object that has
    members and shares none with it; for an intersection this is asked of
    the intersection as a whole and not of its parts, which is what the
    flag [w] is for.  An optional member may be missing or [undefined]; a
    [Record] is checked for the key type [string] only.  A reference by
    name, a type parameter, and a [keyof], an indexed access or a
    conditional that [resolve] left standing have no known inhabitant. *)
Fixpoint has_type_at (w : bool) (t : Ty) (v : Val) {struct t} : bool :=
  match t with
  | TAny => true
  | TVoid | TUndefined => is_undefined v
  | TBoolean => match v with VBool _ => true | _ => false end
  | TNumber => match v with VNum _ => true | _ => false end
  | TString => match v with VStr _ => true | _ => false end
  | TStrLit s => match v with VStr s' => String.eqb s s' | _ => false end
  | TNumLit n => match v with VNum n' => Z.eqb n n' | _ => false end
  | TRef _ | TParam _ | TKeyof _ | TIndexed _ _ | TCond _ _ _ _ => false
  | TExternal n _ =>
      match v with VForeign n' => String.eqb n n' | _ => false end
  | TExternalObject n _ =>
      match v with VForeignObject n' _ => String.eqb n n' | _ => false end
  | TObjectKw =>
      match v with
      | VNode _ | VFun | VForeign _ | VArray _ | VObject _
      | VForeignObject _ _ => true
      | _ => false
      end
  | TRecord k t' =>
      match k, v with
      | TString, VObject fs | TString, VForeignObject _ fs =>
          forallb (fun kv => has_type_at true t' kv.2) (map_to_list fs)
      | _, _ => false
      end
  | TNode t' =>
      match v with VNode x => has_type_at true t' x | _ => false end
  | TObject ms =>
      match v with
      | VObject fs | VForeignObject _ fs =>
          (negb w || weak_ok ms fs)
          && (fix all (ms : list (string * (bool * Ty))) : bool :=
                match ms with
                | [] => true
                | (n, (o, t')) :: ms' =>
                    match fs !! n with
                    | Some x => has_type_at true t' x || (o && is_undefined x)
                    | None => o
                    end && all ms'
                end) ms
      | _ => false
      end
  | TDict t' =>
      match v with
      | VObject fs | VForeignObject _ fs =>
          forallb (fun kv => has_type_at true t' kv.2) (map_to_list fs)
      | _ => false
      end
  | TUnion ts =>
      (fix any (ts : list Ty) : bool :=
         match ts with
         | [] => false
         | t' :: ts' => has_type_at true t' v || any ts'
         end) ts
  | TInter ts =>
      (negb w || inter_weak_ok ts v)
      && (fix all (ts : list Ty) : bool :=
            match ts with
            | [] => true
            | t' :: ts' => has_type_at false t' v && all ts'
            end) ts
  | TTuple ts =>
      match v with
      | VArray vs =>
          (fix all (ts : list Ty) (vs : list Val) : bool :=
             match ts, vs with
             | [], [] => true
             | t' :: ts', x :: vs' => has_type_at true t' x && all ts' vs'
             | _, _ => false
             end) ts vs
      | _ => false
      end
  | TGeneric _ _ _ | TFun _ _ | TRestFun _ _ =>
      match v with VFun => true | _ => false end
  end.

Definition has_type (t : Ty) (v : Val) : bool := has_type_at true t v.

(** The members [ms] as the object with fields [fs] has them: each is
    there at its type, or is optional and missing or [undefined]. *)
Fixpoint members_ok (ms : list (string * (bool * Ty)))
    (fs : gmap string Val) : bool :=
  match ms with
  | [] => true
  | (n, (o, t)) :: ms' =>
      match fs !! n with
      | Some x => has_type t x || (o && is_undefined x)
      | None => o
      end && members_ok ms' fs
  end.

(** Whether a call with the given argument values type-checks against a
    function type (a generic signature is instantiated first, see
    [accepts_at]). *)
Fixpoint accepts_params (ps : list (string * (bool * Ty)))
    (args : list Val) : bool :=
  match ps, args with
  | [], [] => true
  | [], _ :: _ => false
  | (_, (o, _)) :: ps', [] => o && accepts_params ps' []
  | (_, (o, t)) :: ps', x :: args' =>
      (has_type t x || (o && is_undefined x)) && accepts_params ps' args'
  end.

Definition accepts (f : Ty) (args : list Val) : bool :=
  match resolve f with
  | TFun ps _ => accepts_params ps args
  | TRestFun a _ => has_type a (VArray args)
  | _ => false
  end.


Definition result_of (f : Ty) : option Ty :=
  match f with
  | TFun _ r | TRestFun _ r => Some r
  | _ => None
  end.

(** Reading a nested field of a value, [v.a.b.c]. *)
Fixpoint get (v : Val) (path : list string) : option Val :=
  match path with
  | [] => Some v
  | f :: path' =>
      match v with
      | VObject fs | VForeignObject _ fs => x ← fs !! f; get x path'
      | _ => None
      end
  end.

End Ts.

(** ** The declarations of packages/stack/src/types.tsx

    In dependency order.  A generic alias is a function of its type
    arguments. *)

Module StackTypes.
Import Ts.

Definition ext (name : string) : Ty := TExternal name [].

Definition AnimatedNode (t : Ty) : Ty := TNode t.

(** [ParamListBase], imported from [@react-navigation/core] (line 11),
    which declares it as [Record<string, object | undefined>]. *)
Definition ParamListBase : Ty :=
  TRecord TString (TUnion [TObjectKw; TUndefined]).

(** lines 18-27 *)
Definition StackNavigationEventMap : Ty :=
  TObject [
    req "transitionStart" (TObject [req "closing" TBoolean]);
    req "transitionEnd" (TObject [req "closing" TBoolean])
  ].

(** lines 29-32 *)
Definition StackNavigationHelpers : Ty :=
  TExternal "NavigationHelpers" [ParamListBase; StackNavigationEventMap].

(** lines 50-54: the type of [...args] of [push]. *)
Definition push_args (ParamList RouteName : Ty) : Ty :=
  TCond (TIndexed ParamList RouteName) (TUnion [TUndefined; TAny])
    (TUnion [TTuple [RouteName];
             TTuple [RouteName; TIndexed ParamList RouteName]])
    (TTuple [RouteName; TIndexed ParamList RouteName]).

(** lines 43-65: the object type that is intersected with the base
    navigation prop. *)
Definition StackNavigationOperations (ParamList : Ty) : Ty :=
  TObject [
    req "push"
      (TGeneric "RouteName" (TKeyof ParamList)
         (TRestFun (push_args ParamList (TParam "RouteName")) TVoid));
    req "pop" (TFun [opt "count" TNumber] TVoid);
    req "popToTop" (TFun [] TVoid)
  ].

(** lines 34-65 *)
Definition StackNavigationProp (ParamList RouteName : Ty) : Ty :=
  TInter [
    TExternalObject "NavigationProp"
      [ParamList; RouteName; ext "StackNavigationState";
       TRef "StackNavigationOptions"; StackNavigationEventMap];
    StackNavigationOperations ParamList
  ].

(** line 67 *)
Definition Layout : Ty := TObject [req "width" TNumber; req "height" TNumber].

(** line 69 *)
Definition GestureDirection : Ty :=
  TUnion [TStrLit "horizontal"; TStrLit "vertical"].

(** lines 235-240 *)
Definition StackDescriptor : Ty :=
  TExternal "Descriptor"
    [ParamListBase; TString; ext "StackNavigationState";
     TRef "StackNavigationOptions"].

(** lines 83-98: the type of the member [progress] of a scene. *)
Definition SceneProgress : Ty :=
  TObject [
    req "current" (AnimatedNode TNumber);
    opt "next" (AnimatedNode TNumber);
    opt "previous" (AnimatedNode TNumber)
  ].

(** lines 71-99 *)
Definition Scene (T : Ty) : Ty :=
  TObject [
    req "route" T;
    req "descriptor" StackDescriptor;
    req "progress" SceneProgress
  ].

(** line 101 *)
Definition StackHeaderMode : Ty :=
  TUnion [TStrLit "float"; TStrLit "screen"; TStrLit "none"].

(** lines 396-413 *)
Definition StackHeaderTitleProps : Ty :=
  TObject [
    req "onLayout" (TFun [req "e" (ext "LayoutChangeEvent")] TVoid);
    opt "allowFontScaling" TBoolean;
    opt "children" TString;
    opt "style" (TExternal "StyleProp" [ext "TextStyle"])
  ].

(** lines 334-394 *)
Definition StackHeaderLeftButtonProps : Ty :=
  TObject [
    opt "disabled" TBoolean;
    opt "onPress" (TFun [] TVoid);
    opt "pressColorAndroid" TString;
    opt "backImage"
      (TFun [req "props" (TObject [req "tintColor" TString])]
         (ext "React.ReactNode"));
    opt "tintColor" TString;
    opt "label" TString;
    opt "truncatedLabel" TString;
    opt "labelVisible" TBoolean;
    opt "labelStyle"
      (TIndexed
         (TExternal "React.ComponentProps" [ext "typeof Animated.Text"])
         (TStrLit "style"));
    opt "allowFontScaling" TBoolean;
    opt "onLabelLayout" (TFun [req "e" (ext "LayoutChangeEvent")] TVoid);
    opt "screenLayout" Layout;
    opt "titleLayout" Layout;
    opt "canGoBack" TBoolean
  ].

(** lines 103-201 *)
Definition StackHeaderOptions : Ty :=
  TObject [
    opt "headerTitle"
      (TUnion [TString;
               TFun [req "props" StackHeaderTitleProps]
                 (ext "React.ReactNode")]);
    opt "headerTitleAlign" (TUnion [TStrLit "left"; TStrLit "center"]);
    opt "headerTitleStyle" (TExternal "StyleProp" [ext "TextStyle"]);
    opt "headerTitleContainerStyle" (TExternal "StyleProp" [ext "ViewStyle"]);
    opt "headerTintColor" TString;
    opt "headerTitleAllowFontScaling" TBoolean;
    opt "headerBackAllowFontScaling" TBoolean;
    opt "headerBackTitle" TString;
    opt "headerBackTitleStyle" (TExternal "StyleProp" [ext "TextStyle"]);
    opt "headerBackTitleVisible" TBoolean;
    opt "headerTruncatedBackTitle" TString;
    opt "headerLeft"
      (TFun [req "props" StackHeaderLeftButtonProps] (ext "React.ReactNode"));
    opt "headerLeftContainerStyle" (TExternal "StyleProp" [ext "ViewStyle"]);
    opt "headerRight"
      (TFun [req "props" (TObject [opt "tintColor" TString])]
         (ext "React.ReactNode"));
    opt "headerRightContainerStyle" (TExternal "StyleProp" [ext "ViewStyle"]);
    opt "headerBackImage"
      (TIndexed StackHeaderLeftButtonProps (TStrLit "backImage"));
    opt "headerPressColorAndroid" TString;
    opt "headerBackground"
      (TFun
         [req "props"
            (TObject [req "style" (TExternal "StyleProp" [ext "ViewStyle"])])]
         (ext "React.ReactNode"));
    opt "headerStyle" (TExternal "StyleProp" [ext "ViewStyle"]);
    opt "headerTransparent" TBoolean
  ].

(** lines 421-428 *)
Definition SpringConfig : Ty :=
  TObject [
    req "damping" TNumber;
    req "mass" TNumber;
    req "stiffness" TNumber;
    req "restSpeedThreshold" TNumber;
    req "restDisplacementThreshold" TNumber;
    req "overshootClamping" TBoolean
  ].

(** lines 430-433 *)
Definition TimingConfig : Ty :=
  TObject [
    req "duration" TNumber;
    req "easing" (ext "Animated.EasingFunction")
  ].

(** lines 435-437 *)
Definition TransitionSpec : Ty :=
  TUnion [
    TObject [req "animation" (TStrLit "spring"); req "config" SpringConfig];
    TObject [req "animation" (TStrLit "timing"); req "config" TimingConfig]
  ].

(** lines 439-485 *)
Definition StackCardInterpolationProps : Ty :=
  TObject [
    req "current" (TObject [req "progress" (AnimatedNode TNumber)]);
    opt "next" (TObject [req "progress" (AnimatedNode TNumber)]);
    req "index" TNumber;
    req "closing" (AnimatedNode (TUnion [TNumLit 0; TNumLit 1]));
    req "layouts" (TObject [req "screen" Layout]);
    req "insets"
      (TObject [req "top" TNumber; req "right" TNumber;
                req "bottom" TNumber; req "left" TNumber])
  ].

(** lines 487-504 *)
Definition StackCardInterpolatedStyle : Ty :=
  TObject [
    opt "containerStyle" TAny;
    opt "cardStyle" TAny;
    opt "overlayStyle" TAny;
    opt "shadowStyle" TAny
  ].

(** lines 506-508 *)
Definition StackCardStyleInterpolator : Ty :=
  TFun [req "props" StackCardInterpolationProps] StackCardInterpolatedStyle.

(** lines 510-547 *)
Definition StackHeaderInterpolationProps : Ty :=
  TObject [
    req "current" (TObject [req "progress" (AnimatedNode TNumber)]);
    opt "next" (TObject [req "progress" (AnimatedNode TNumber)]);
    req "layouts"
      (TObject [req "screen" Layout; opt "title" Layout;
                opt "leftLabel" Layout])
  ].

(** lines 549-570 *)
Definition StackHeaderInterpolatedStyle : Ty :=
  TObject [
    opt "leftLabelStyle" TAny;
    opt "leftButtonStyle" TAny;
    opt "rightButtonStyle" TAny;
    opt "titleStyle" TAny;
    opt "backgroundStyle" TAny
  ].

(** lines 572-574 *)
Definition StackHeaderStyleInterpolator : Ty :=
  TFun [req "props" StackHeaderInterpolationProps]
    StackHeaderInterpolatedStyle.

(** lines 576-602 *)
Definition TransitionPreset : Ty :=
  TObject [
    req "gestureDirection" GestureDirection;
    req "transitionSpec"
      (TObject [req "open" TransitionSpec; req "close" TransitionSpec]);
    req "cardStyleInterpolator" StackCardStyleInterpolator;
    req "headerStyleInterpolator" StackHeaderStyleInterpolator
  ].

(** lines 203-233 *)
Definition StackHeaderProps : Ty :=
  TObject [
    req "mode" (TUnion [TStrLit "float"; TStrLit "screen"]);
    req "layout" Layout;
    req "insets" (ext "EdgeInsets");
    req "scene" (Scene (TExternal "Route" [TString]));
    opt "previous" (Scene (TExternal "Route" [TString]));
    req "navigation" (StackNavigationProp (ParamListBase) TString);
    req "styleInterpolator" StackHeaderStyleInterpolator
  ].

(** lines 247-322: the members that [StackNavigationOptions] declares
    itself. *)
Definition StackNavigationOwnOptions : Ty :=
  TObject [
    opt "title" TString;
    opt "header" (TFun [req "props" StackHeaderProps] (ext "React.ReactNode"));
    opt "headerShown" TBoolean;
    opt "cardShadowEnabled" TBoolean;
    opt "cardOverlayEnabled" TBoolean;
    opt "cardTransparent" TBoolean;
    opt "cardStyle" (TExternal "StyleProp" [ext "ViewStyle"]);
    opt "animationEnabled" TBoolean;
    opt "gestureEnabled" TBoolean;
    opt "gestureResponseDistance"
      (TObject [opt "vertical" TNumber; opt "horizontal" TNumber]);
    opt "gestureVelocityImpact" TNumber;
    opt "safeAreaInsets"
      (TObject [opt "top" TNumber; opt "right" TNumber;
                opt "bottom" TNumber; opt "left" TNumber])
  ].

(** lines 246-322 *)
Definition StackNavigationOptions : Ty :=
  TInter [StackHeaderOptions; Partial TransitionPreset;
          StackNavigationOwnOptions].

(** lines 242-244 *)
Definition StackDescriptorMap : Ty := TDict StackDescriptor.

(** lines 324-332 *)
Definition StackNavigationConfig : Ty :=
  TObject [
    opt "mode" (TUnion [TStrLit "card"; TStrLit "modal"]);
    opt "headerMode" StackHeaderMode;
    opt "keyboardHandlingEnabled" TBoolean
  ].

(** lines 415-419 *)
Definition Screen : Ty :=
  TInter [
    TExternal "React.ComponentType" [TAny];
    TObject [
      opt "navigationOptions" (TInter [StackNavigationOptions; TDict TAny])
    ]
  ].

(** *** Vocabulary for the statements about transition specs *)

(** A value laid out as the spring variant of [TransitionSpec]. *)
Definition spring_shaped (v : Val) : Prop :=
  get v ["animation"] = Some (VStr "spring")
  /\ exists (damping mass stiffness speed displacement : Z) (clamp : bool),
       get v ["config"; "damping"] = Some (VNum damping)
       /\ get v ["config"; "mass"] = Some (VNum mass)
       /\ get v ["config"; "stiffness"] = Some (VNum stiffness)
       /\ get v ["config"; "restSpeedThreshold"] = Some (VNum speed)
       /\ get v ["config"; "restDisplacementThreshold"]
          = Some (VNum displacement)
       /\ get v ["config"; "overshootClamping"] = Some (VBool clamp).

(** A value laid out as the timing variant of [TransitionSpec]. *)
Definition timing_shaped (v : Val) : Prop :=
  get v ["animation"] = Some (VStr "timing")
  /\ exists duration : Z,
       get v ["config"; "duration"] = Some (VNum duration)
       /\ get v ["config"; "easing"]
          = Some (VForeign "Animated.EasingFunction").




Definition closingPayload : Val := VObject {["closing" := VBool true]}.

Definition someTiming : Val :=
  VObject
    (<["animation" := VStr "timing"]>
       {["config" :=
           VObject (<["duration" := VNum 300]>
                      {["easing" := VForeign "Animated.EasingFunction"]})]}).

Definition someCardProps : Val :=
  VObject
    (<["current" := VObject {["progress" := VNode (VNum 1)]}]>
     (<["index" := VNum 0]>
      (<["closing" := VNode (VNum 0)]>
       (<["layouts" :=
            VObject
              {["screen" :=
                  VObject (<["width" := VNum 375]> {["height" := VNum 812]})]}]>
        {["insets" :=
            VObject
              (<["top" := VNum 44]>
               (<["right" := VNum 0]>
                (<["bottom" := VNum 34]> {["left" := VNum 0]})))]})))).

End StackTypes.

(** ** Scenes of the stack view *)

Module StackView.

(** A mounted screen: its descriptor and the progress value it owns (the
    number its animated node holds). *)
Record Mounted : Type := {
  descriptor : string;
  progress : Z
}.

(** The [progress] member of a scene (types.tsx, lines 83-98), with its two
    optional members as options. *)
Record ProgressRefs : Type := {
  current : Z;
  next : option Z;
  previous : option Z
}.

Record SceneView : Type := {
  scene_descriptor : string;
  scene_progress : ProgressRefs
}.

(** Modelled from the spec: the construction of scenes, done by
    views/Stack/StackView.tsx, which is not among the sources.  A scene
    "bundles the screen descriptor with three progress references: current
    (this screen's own progress), next (the screen stacked above it, if
    any), previous (the screen below it, if any)"; "scenes are recomputed
    each render pass from the current screen list". *)
Definition scene (screens : list Mounted) (i : nat) (s : Mounted) : SceneView :=
  {| scene_descriptor := descriptor s;
     scene_progress :=
       {| current := progress s;
          next := progress <$> screens !! S i;
          previous :=
            match i with
            | O => None
            | S j => progress <$> screens !! j
            end |} |}.

Definition scenes (screens : list Mounted) : list SceneView :=
  imap (scene screens) screens.

Definition set_member (name : string) (o : option Z)
    (fs : gmap string Val) : gmap string Val :=
  match o with
  | Some p => <[name := VNode (VNum p)]> fs
  | None => fs
  end.

(** The JavaScript object for the progress references; a reference that is not
    there is a missing field. *)
Definition progress_object (p : ProgressRefs) : Val :=
  VObject
    (set_member "previous" (previous p)
       (set_member "next" (next p)
          {["current" := VNode (VNum (current p))]})).

(** Two mounted screens, for the examples. *)
Definition twoScreens : list Mounted :=
  [{| descriptor := "home"; progress := 1 |};
   {| descriptor := "details"; progress := 0 |}].

(** The scene of the screen on top of [twoScreens]. *)
Definition topScene : SceneView :=
  scene twoScreens 1 {| descriptor := "details"; progress := 0 |}.

End StackView.

(** ** Edge distance of the dismiss gesture *)

Module Gesture.

(** types.tsx, line 69 *)
Inductive GestureDirection : Type := horizontal | vertical.

(** One member of the [gestureResponseDistance] option, when the option is
    an object that sets it to a number. *)
Definition override (gestureResponseDistance : Val) (member : string)
    : option Z :=
  match Ts.get gestureResponseDistance [member] with
  | Some (VNum d) => Some d
  | _ => None
  end.

(** Modelled from the spec: the edge-response distance that gates the start
    of a pan, computed by the card view, which is not among the sources.
    "pan starts within the configured edge-response distance
    (direction-dependent: horizontal threshold vs vertical threshold)";
    "gesture-direction vertical uses vertical translation and vertical
    edge-response distance"; the values "(25/135)" are "configurable
    defaults".  The comments of types.tsx (lines 298 and 302) give 25 to
    the horizontal direction and 135 to the vertical one. *)
Definition responseDistance (direction : GestureDirection)
    (gestureResponseDistance : Val) : Z :=
  match direction with
  | horizontal => default 25 (override gestureResponseDistance "horizontal")
  | vertical => default 135 (override gestureResponseDistance "vertical")
  end.

End Gesture.

(** ** The navigator component, continued: props, rendering, and the life
       of the effect *)

Module Component.
Import Navigator.

(** A destructured property that the object does not have is [undefined]. *)
Definition prop (props : gmap string Val) (name : string) : Val :=
  default VUndefined (props !! name).

(** Lines 26-32: [...rest], the props left once the four named ones are
    taken out. *)
Definition rest (props : gmap string Val) : gmap string Val :=
  delete "keyboardHandlingEnabled"
    (delete "initialRouteName"
       (delete "children" (delete "screenOptions" props))).

(** Lines 38-42: the options object handed to [useNavigationBuilder]. *)
Definition builderOptions (props : gmap string Val) : gmap string Val :=
  <["initialRouteName" := prop props "initialRouteName"]>
    (<["children" := prop props "children"]>
       {["screenOptions" := prop props "screenOptions"]}).

(** What [useNavigationBuilder] returns (line 33). *)
Record Built : Type := {
  b_state : Val;
  b_descriptors : Val;
  b_navigation : Val
}.

(** The element returned on lines 66-78: [KeyboardManager] with its
    [enabled] prop and its child, a function from the props the keyboard
    manager supplies to the props of the [StackView] it renders. *)
Record KeyboardManagerElement : Type := {
  km_enabled : bool;
  km_children : gmap string Val -> gmap string Val
}.

(** Lines 70-72: the attributes [state], [descriptors] and [navigation]. *)
Definition builtProps (b : Built) : gmap string Val :=
  <["state" := b_state b]>
    (<["descriptors" := b_descriptors b]> {["navigation" := b_navigation b]}).

Section WithBuilder.

(** [useNavigationBuilder] of [@react-navigation/core], applied to
    [StackRouter]. *)
Variable useNavigationBuilder : gmap string Val -> Built.

(** Lines 69-75: the attributes of [StackView]; a later attribute or
    spread replaces an earlier one of the same name. *)
Definition stackViewProps (props kmProps : gmap string Val)
    : gmap string Val :=
  kmProps ∪
    (rest props ∪ builtProps (useNavigationBuilder (builderOptions props))).

(** Lines 26-79, the render part. *)
Definition StackNavigator (props : gmap string Val) : KeyboardManagerElement :=
  {| km_enabled :=
       keyboardManagerEnabled (prop props "keyboardHandlingEnabled");
     km_children := stackViewProps props |}.

End WithBuilder.

(** *** The effect over the renders of a mounted navigator *)

(** The [navigation] object of a render: its identity, and whether it has
    [addListener]. *)
Record NavigationObject : Type := {
  nav_id : nat;
  nav_addListener : bool
}.

Record Render : Type := {
  r_navigation : NavigationObject;
  r_state : StackNavigationState
}.

(** A registered listener: the navigation object it was added to, the
    identity of the registration, and the listener. *)
Record Subscription : Type := {
  sub_navigation : nat;
  sub_id : nat;
  sub_listener : Listener
}.

Record Registry : Type := {
  next_id : nat;
  subscriptions : list Subscription
}.

(** Modelled from the spec: listener registration of the navigation core,
    which is not among the sources.  "Listener registration returning an
    unsubscribe closure": "subscribe(eventKind, handler) returns a
    disposer", and subscribers are notified "in registration order".  The
    disposer is the identity of the registration. *)
Definition addListener (n : nat) (l : Listener) (reg : Registry)
    : nat * Registry :=
  (next_id reg,
   {| next_id := S (next_id reg);
      subscriptions :=
        subscriptions reg ++
        [{| sub_navigation := n; sub_id := next_id reg; sub_listener := l |}]
   |}).

Definition unsubscribe (id : nat) (reg : Registry) : Registry :=
  {| next_id := next_id reg;
     subscriptions := filter (fun s => sub_id s <> id) (subscriptions reg) |}.

(** The listeners that an emission on navigation object [n] reaches. *)
Definition listenersOf (n : nat) (reg : Registry) : list Listener :=
  sub_listener <$> filter (fun s => sub_navigation s = n) (subscriptions reg).

(** Lines 45-62: the effect function.  Its result, the cleanup, is the
    disposer, or nothing when [navigation.addListener] is not there. *)
Definition effect (r : Render) (reg : Registry) : option nat * Registry :=
  if nav_addListener (r_navigation r)
  then let p := addListener (nav_id (r_navigation r))
                  (StackTabPress (r_state r)) reg in
       (Some p.1, p.2)
  else (None, reg).

(** Line 63: [[navigation, state.index, state.key]]; the navigation object
    is compared by identity. *)
Definition depsOf (r : Render) : nat * Z * string :=
  (nav_id (r_navigation r), index (r_state r), key (r_state r)).

(** The effect as React keeps it between renders: the dependencies it last
    ran with and the cleanup it returned. *)
Record EffectState : Type := {
  eff_deps : nat * Z * string;
  eff_cleanup : option nat
}.

Definition runCleanup (e : EffectState) (reg : Registry) : Registry :=
  match eff_cleanup e with
  | Some id => unsubscribe id reg
  | None => reg
  end.

(** [React.useEffect] after a render: the first render runs the effect; a
    later one runs the previous cleanup and then the effect, but only when
    a dependency changed. *)
Definition commit (prev : option EffectState) (r : Render) (reg : Registry)
    : EffectState * Registry :=
  match prev with
  | None =>
      let p := effect r reg in
      ({| eff_deps := depsOf r; eff_cleanup := p.1 |}, p.2)
  | Some e =>
      if decide (eff_deps e = depsOf r) then (e, reg)
      else
        let p := effect r (runCleanup e reg) in
        ({| eff_deps := depsOf r; eff_cleanup := p.1 |}, p.2)
  end.

(** The first render [r], then the renders [rs]. *)
Definition renderAll (r : Render) (rs : list Render) (reg : Registry)
    : EffectState * Registry :=
  foldl (fun s r' => commit (Some s.1) r' s.2) (commit None r reg) rs.

(** Unmounting runs the last cleanup. *)
Definition unmount (s : EffectState * Registry) : Registry :=
  runCleanup s.1 s.2.

(** The render whose effect is the one in place after [r] and [rs]. *)
Definition lastRender (r : Render) (rs : list Render) : Render :=
  List.last rs r.

(** Registrations carry identities the registry has already given out. *)
Definition wellFormed (reg : Registry) : Prop :=
  Forall (fun s => (sub_id s < next_id reg)%nat) (subscriptions reg).

(** The effect of render [cur] is the one in place in [s], on top of the
    registrations of [reg0]. *)
Definition inPlace (reg0 : Registry) (cur : Render)
    (s : EffectState * Registry) : Prop :=
  eff_deps s.1 = depsOf cur
  /\ (next_id reg0 <= next_id s.2)%nat
  /\ match eff_cleanup s.1 with
     | Some id =>
         (next_id reg0 <= id < next_id s.2)%nat
         /\ subscriptions s.2
            = subscriptions reg0 ++
              [{| sub_navigation := nav_id (r_navigation cur); sub_id := id;
                  sub_listener := StackTabPress (r_state cur) |}]
     | None => subscriptions s.2 = subscriptions reg0
     end.

(** *** Vocabulary for the statements about frames *)

(** Whether a waiting callback dispatches, given the flags of the event
    objects when the frame runs. *)
Definition fires (flags : list bool) (cb : FrameCallback) : bool :=
  (0 <? index (cb_state cb)) && cb_isFocused cb
  && negb (default false (flags !! cb_event cb)).

(** The callbacks that the listeners [ls] queue for event [e], the first
    of them running with focus [f]. *)
Fixpoint queued (ls : list Listener) (e : nat) (f : bool)
    : list FrameCallback :=
  match ls with
  | [] => []
  | StackTabPress st :: ls' =>
      {| cb_state := st; cb_isFocused := f; cb_event := e |}
      :: queued ls' e f
  | User u :: ls' => queued ls' e (default f (changesFocusTo u))
  end.

Definition userOf (l : Listener) : list UserListener :=
  match l with
  | User u => [u]
  | StackTabPress _ => []
  end.

(** The other listeners among [ls]. *)
Definition usersOf (ls : list Listener) : list UserListener :=
  ls ≫= userOf.

Section WithRouter.
Variable popToTop : gmap string Val.

(** What the frame dispatches for the waiting callbacks [cbs]. *)
Definition pending (flags : list bool) (cbs : list FrameCallback)
    : list (gmap string Val) :=
  omap (fun cb =>
          if fires flags cb then Some (resetAction popToTop (cb_state cb))
          else None) cbs.

(** The resets that the navigators among [ls] ask for when nothing is
    prevented, the first listener running with focus [f]. *)
Fixpoint resetsOf (ls : list Listener) (f : bool) : list (gmap string Val) :=
  match ls with
  | [] => []
  | StackTabPress st :: ls' =>
      (if (0 <? index st) && f then [resetAction popToTop st] else [])
      ++ resetsOf ls' f
  | User u :: ls' => resetsOf ls' (default f (changesFocusTo u))
  end.

(** The outcome of one tab press delivered to [ls]. *)
Definition decided (ls : list Listener) (f : bool) : list (gmap string Val) :=
  if anyPrevents (usersOf ls) then [] else resetsOf ls f.

(** The outcome of several tab presses, delivered one after the other
    before a frame runs. *)
Fixpoint decidedAll (presses : list (list Listener)) (f : bool)
    : list (gmap string Val) :=
  match presses with
  | [] => []
  | ls :: presses' =>
      decided ls f ++ decidedAll presses' (focusAfter (usersOf ls) f)
  end.

End WithRouter.

(** Values for the examples. *)
Definition latestStack : StackNavigationState :=
  {| key := "stack-1"; index := 1 |}.

Definition someNavigation : NavigationObject :=
  {| nav_id := 7; nav_addListener := true |}.

Definition emptyRegistry : Registry := {| next_id := 0; subscriptions := [] |}.

Definition someBuilder (options : gmap string Val) : Built :=
  {| b_state := VForeign "StackNavigationState";
     b_descriptors := VForeign "StackDescriptorMap";
     b_navigation := VForeign "StackNavigationHelpers" |}.

Definition someProps : gmap string Val :=
  <["keyboardHandlingEnabled" := VBool false]>
    (<["mode" := VStr "modal"]> {["initialRouteName" := VStr "Home"]}).

Definition otherNavigation : NavigationObject :=
  {| nav_id := 8; nav_addListener := true |}.

(** A registry in which another listener is registered on
    [someNavigation]. *)
Definition busyRegistry : Registry :=
  {| next_id := 1;
     subscriptions :=
       [{| sub_navigation := 7; sub_id := 0;
           sub_listener :=
             User {| callsPreventDefault := false; changesFocusTo := None |}
        |}] |}.

(** A navigator mounted two screens deep that is then popped to its first
    screen, moved to another navigation object, and pushed once. *)
Definition firstRender : Render :=
  {| r_navigation := someNavigation;
     r_state := {| key := "stack-1"; index := 2 |} |}.

Definition laterRenders : list Render :=
  [{| r_navigation := someNavigation;
      r_state := {| key := "stack-1"; index := 0 |} |};
   {| r_navigation := otherNavigation;
      r_state := {| key := "stack-1"; index := 0 |} |};
   {| r_navigation := otherNavigation;
      r_state := {| key := "stack-1"; index := 1 |} |}].

Definition shallowStack : StackNavigationState :=
  {| key := "stack-1"; index := 0 |}.

Definition nestedStack : StackNavigationState :=
  {| key := "stack-2"; index := 1 |}.

End Component.

(** ** Further vocabulary and examples for the declarations *)

Module StackTypesMore.
Import Ts StackTypes.

(** The type of a member, when the object type declares it. *)
Definition member_type (t : Ty) (name : string) : Ty :=
  match member t name with
  | Some (_, t') => t'
  | None => TRef name
  end.

(** The value of an optional layout: missing, [undefined], or a layout with
    numeric [width] and [height]. *)
Definition optional_layout (v : Val) (path : list string) : Prop :=
  get v path = None \/ get v path = Some VUndefined
  \/ exists w h : Z,
       get v (path ++ ["width"]) = Some (VNum w)
       /\ get v (path ++ ["height"]) = Some (VNum h).

(** Every member of [ms] is optional and has a name outside [names]. *)
Definition optional_outside (names : list string)
    (ms : list (string * (bool * Ty))) : bool :=
  forallb (fun m => m.2.1 && negb (existsb (String.eqb m.1) names)) ms.

(** The names of all options that [StackNavigationOptions] declares. *)
Definition optionNames : list string :=
  member_names StackHeaderOptions ++ member_names TransitionPreset
  ++ member_names StackNavigationOwnOptions.

Definition someOptions : gmap string Val :=
  <["title" := VStr "Home"]> {["headerShown" := VBool false]}.

Definition somePreset : gmap string Val :=
  <["gestureDirection" := VStr "horizontal"]>
    (<["transitionSpec" :=
         VObject (<["open" := someTiming]> {["close" := someTiming]})]>
       (<["cardStyleInterpolator" := VFun]>
          {["headerStyleInterpolator" := VFun]})).

Definition someHeaderProps : Val :=
  VObject
    (<["current" := VObject {["progress" := VNode (VNum 1)]}]>
       {["layouts" :=
           VObject
             {["screen" :=
                 VObject (<["width" := VNum 375]> {["height" := VNum 812]})]}
       ]}).

End StackTypesMore.

(** * Properties *)

(** ** The tab-press effect *)

Module NavigatorFacts.
Import Navigator.

Lemma mark_length b e flags : length (mark b e flags) = length flags.
Proof. destruct b; simpl; [apply length_insert | reflexivity]. Qed.

Lemma mark_mark b1 b2 e flags :
  mark b2 e (mark b1 e flags) = mark (b1 || b2) e flags.
Proof.
  destruct b1, b2; simpl; try reflexivity.
  apply list_insert_insert_eq.
Qed.

Lemma mark_fresh b flags :
  default false (mark b (length flags) (flags ++ [false]) !! length flags) = b.
Proof.
  destruct b; simpl.
  - rewrite list_lookup_insert_eq; [reflexivity |].
    rewrite length_app; simpl; lia.
  - rewrite list_lookup_middle; reflexivity.
Qed.

Lemma anyPrevents_app us1 us2 :
  anyPrevents (us1 ++ us2) = anyPrevents us1 || anyPrevents us2.
Proof. apply existsb_app. Qed.

(** Other listeners only touch the event's flag and the focus. *)
Lemma run_users us e w :
  foldl (fun w l => runListener l e w) w (User <$> us)
  = {| focused := focusAfter us (focused w);
       events := mark (anyPrevents us) e (events w);
       frames := frames w;
       dispatched := dispatched w |}.
Proof.
  revert w; induction us as [| u us IH]; intros w.
  - destruct w; reflexivity.
  - cbn [fmap list_fmap foldl]. rewrite IH. clear IH.
    destruct u as [p f]; unfold runUser, focusAfter, anyPrevents; simpl.
    destruct p, f; simpl; try reflexivity;
      try (f_equal; apply (mark_mark true)).
Qed.

Lemma emit_tabPress pre st post w :
  emit (tabPressListeners pre st post) w
  = {| focused := focusAfter post (focusAfter pre (focused w));
       events := mark (anyPrevents (pre ++ post)) (length (events w))
                   (events w ++ [false]);
       frames := frames w ++
                 [{| cb_state := st;
                     cb_isFocused := focusAfter pre (focused w);
                     cb_event := length (events w) |}];
       dispatched := dispatched w |}.
Proof.
  unfold emit, tabPressListeners.
  rewrite foldl_app, run_users. cbn [foldl runListener].
  unfold tabPressListener, requestAnimationFrame. rewrite run_users. simpl.
  rewrite mark_mark, anyPrevents_app. reflexivity.
Qed.

Lemma runListener_dispatched l e w :
  dispatched (runListener l e w) = dispatched w.
Proof.
  destruct l as [st | [p f]]; simpl; [reflexivity |].
  unfold runUser; simpl. destruct p, f; reflexivity.
Qed.

Lemma emit_dispatched ls w : dispatched (emit ls w) = dispatched w.
Proof.
  unfold emit.
  set (e := length (events w)). clearbody e.
  set (w0 := Build_World _ _ _ _).
  change (dispatched w) with (dispatched w0). clearbody w0.
  revert w0; induction ls as [| l ls IH]; intros w0; simpl; [reflexivity |].
  rewrite IH. apply runListener_dispatched.
Qed.

(** Rendering the navigator after the listeners [pre] were registered puts
    its own listener behind them. *)
Lemma useEffect_subscribes pre st :
  useEffect true st (User <$> pre) = tabPressListeners pre st []
  /\ useEffect false st (User <$> pre) = User <$> pre.
Proof. split; reflexivity. Qed.

Section WithRouter.
Variable popToTop : gmap string Val.

Lemma frameCallback_set_focused cb b w :
  frameCallback popToTop cb (set_focused b w)
  = set_focused b (frameCallback popToTop cb w).
Proof.
  unfold frameCallback, defaultPrevented; simpl.
  destruct (_ && _ && _); reflexivity.
Qed.

Lemma runFrame_set_focused b w :
  runFrame popToTop (set_focused b w) = set_focused b (runFrame popToTop w).
Proof.
  unfold runFrame; simpl.
  set (w0 := Build_World (focused w) _ _ _).
  change (Build_World b (events w) [] (dispatched w)) with (set_focused b w0).
  clearbody w0. revert w0.
  induction (frames w) as [| cb cbs IH]; intros w0; simpl; [reflexivity |].
  rewrite frameCallback_set_focused. apply IH.
Qed.

Lemma tabPress_then_frame pre st post w :
  frames w = [] ->
  dispatched (runFrame popToTop (emit (tabPressListeners pre st post) w))
  = dispatched w ++
    (if resets pre st post w then [resetAction popToTop st] else []).
Proof.
  intros Hq. rewrite emit_tabPress. unfold runFrame; simpl.
  rewrite Hq; simpl. unfold frameCallback, defaultPrevented; simpl.
  rewrite mark_fresh. unfold resets.
  destruct (_ && _ && _); simpl; [reflexivity |].
  symmetry; apply app_nil_r.
Qed.

End WithRouter.

(** C1: a tab press that reaches the navigator while it is focused, with
    [state.index] above 0 and no listener having called [preventDefault],
    makes the next frame dispatch the pop-to-top action with [target] set
    to [state.key]; when the navigator is not focused, or the index is not
    above 0, or some listener prevented the default, the frame dispatches
    nothing. *)
Theorem tabPress_pops_to_top_iff (popToTop : gmap string Val)
    (pre : list UserListener) (st : StackNavigationState)
    (post : list UserListener) (w : World) :
  frames w = [] ->
  (focusAfter pre (focused w) = true /\ 0 < index st
   /\ anyPrevents (pre ++ post) = false ->
     dispatched (runFrame popToTop (emit (tabPressListeners pre st post) w))
     = dispatched w ++ [resetAction popToTop st]
     /\ resetAction popToTop st !! "target" = Some (VStr (key st))
     /\ forall k : string,
          k <> "target" -> resetAction popToTop st !! k = popToTop !! k)
  /\ (focusAfter pre (focused w) = false \/ index st <= 0
      \/ anyPrevents (pre ++ post) = true ->
     dispatched (runFrame popToTop (emit (tabPressListeners pre st post) w))
     = dispatched w).
Proof.
  intros Hq. rewrite (tabPress_then_frame popToTop pre st post w Hq).
  unfold resets. split.
  - intros (Hf & Hi & Hp). rewrite Hf, Hp.
    apply Z.ltb_lt in Hi. rewrite Hi. simpl. split; [reflexivity |].
    unfold resetAction. split.
    + apply lookup_insert_eq.
    + intros k Hk. apply lookup_insert_ne. congruence.
  - intros [Hf | [Hi | Hp]].
    + rewrite Hf, andb_false_r. simpl. apply app_nil_r.
    + apply Z.ltb_ge in Hi. rewrite Hi. simpl. apply app_nil_r.
    + rewrite Hp, andb_false_r. apply app_nil_r.
Qed.

Lemma tabPress_pops_to_top_iff_witness :
  dispatched
    (runFrame popToTopAction
       (emit (tabPressListeners [] deepStack []) idleWorld))
  = [resetAction popToTopAction deepStack]
  /\ dispatched
       (runFrame popToTopAction
          (emit (tabPressListeners [] deepStack [preventer]) idleWorld))
     = [].
Proof.
  split.
  - apply (proj1 (tabPress_pops_to_top_iff popToTopAction [] deepStack []
                    idleWorld eq_refl)).
    repeat split.
  - apply (proj2 (tabPress_pops_to_top_iff popToTopAction [] deepStack
                    [preventer] idleWorld eq_refl)).
    right; right; reflexivity.
Defined.


(** C10: while a tab press is being delivered nothing is dispatched,
    whatever the listeners are; the navigator's listener only queues a
    frame callback, which holds the focus read when the listener ran; a
    change of focus after delivery does not change what the frame
    dispatches; and a listener that runs after the navigator's and calls
    [preventDefault] keeps the frame from dispatching. *)
Theorem tabPress_reset_is_deferred (popToTop : gmap string Val)
    (ls : list Listener) (pre : list UserListener)
    (st : StackNavigationState) (post : list UserListener) (w : World)
    (b : bool) :
  frames w = [] ->
  dispatched (emit ls w) = dispatched w
  /\ frames (emit (tabPressListeners pre st post) w)
     = [{| cb_state := st; cb_isFocused := focusAfter pre (focused w);
           cb_event := length (events w) |}]
  /\ dispatched (runFrame popToTop (set_focused b (emit ls w)))
     = dispatched (runFrame popToTop (emit ls w))
  /\ (anyPrevents post = true ->
      dispatched (runFrame popToTop (emit (tabPressListeners pre st post) w))
      = dispatched w).
Proof.
  intros Hq. split; [apply emit_dispatched |]. split.
  { rewrite emit_tabPress. simpl. rewrite Hq. reflexivity. }
  split.
  { rewrite runFrame_set_focused. reflexivity. }
  intros Hp. rewrite (tabPress_then_frame popToTop pre st post w Hq).
  unfold resets. rewrite anyPrevents_app, Hp, orb_true_r, andb_false_r.
  apply app_nil_r.
Qed.

Lemma tabPress_reset_is_deferred_witness :
  dispatched (emit (tabPressListeners [] deepStack [preventer]) idleWorld) = []
  /\ dispatched
       (runFrame popToTopAction
          (emit (tabPressListeners [] deepStack [preventer]) idleWorld))
     = [].
Proof.
  pose proof (tabPress_reset_is_deferred popToTopAction
                (tabPressListeners [] deepStack [preventer]) [] deepStack
                [preventer] idleWorld false eq_refl) as (H1 & _ & _ & H4).
  split; [exact H1 | exact (H4 eq_refl)].
Defined.

End NavigatorFacts.

(** ** Values of described types *)

Module TsFacts.
Import Ts.

Lemma get_field fs n : get (VObject fs) [n] = fs !! n.
Proof. simpl. destruct (fs !! n); reflexivity. Qed.

Lemma get_cons v n path :
  get v (n :: path) = get v [n] ≫= fun x => get x path.
Proof.
  destruct v; try reflexivity; simpl; destruct (_ !! n); reflexivity.
Qed.

Lemma get_step v n path x y :
  get v [n] = Some x -> get x path = Some y -> get v (n :: path) = Some y.
Proof. intros Hx Hy. rewrite get_cons, Hx. exact Hy. Qed.

Lemma members_ok_cons n o t ms fs :
  members_ok ((n, (o, t)) :: ms) fs
  = match fs !! n with
    | Some x => has_type t x || (o && is_undefined x)
    | None => o
    end && members_ok ms fs.
Proof. reflexivity. Qed.

(** An object is of an object type when it passes the refusal of weak
    types, where that applies, and has the members. *)
Lemma has_type_at_object w ms fs :
  has_type_at w (TObject ms) (VObject fs)
  = (negb w || weak_ok ms fs) && members_ok ms fs.
Proof.
  cbn [has_type_at]. f_equal.
  induction ms as [| [n [o t]] ms IH]; [reflexivity |].
  rewrite members_ok_cons, <- IH. reflexivity.
Qed.

Lemma has_type_object ms fs :
  has_type (TObject ms) (VObject fs) = weak_ok ms fs && members_ok ms fs.
Proof. apply (has_type_at_object true). Qed.

Lemma has_type_at_by_fields w ms v fs :
  fields_of v = Some fs ->
  has_type_at w (TObject ms) v = has_type_at w (TObject ms) (VObject fs).
Proof. destruct v; try discriminate; intros [= ->]; reflexivity. Qed.

Lemma has_type_by_fields ms v fs :
  fields_of v = Some fs ->
  has_type (TObject ms) v = has_type (TObject ms) (VObject fs).
Proof. apply (has_type_at_by_fields true). Qed.

(** A value of an object type is an object, and is of that type by the
    members it carries. *)
Lemma has_type_object_inv ms v :
  has_type (TObject ms) v = true ->
  exists fs,
    fields_of v = Some fs /\ has_type (TObject ms) (VObject fs) = true
    /\ members_ok ms fs = true
    /\ forall n, get v [n] = fs !! n.
Proof.
  intros H.
  assert (exists fs, fields_of v = Some fs /\ forall n, get v [n] = fs !! n)
    as (fs & Hf & Hg).
  { destruct v; try discriminate; exists fields;
      (split; [reflexivity |]);
      intros n; simpl; destruct (fields !! n); reflexivity. }
  exists fs. rewrite (has_type_by_fields _ _ _ Hf) in H.
  split; [exact Hf |]. split; [exact H |]. split; [| exact Hg].
  rewrite has_type_object in H. apply andb_true_iff in H. tauto.
Qed.

Lemma members_ok_required ms fs n t :
  members_ok ms fs = true ->
  find_member n ms = Some (false, t) ->
  exists x, fs !! n = Some x /\ has_type t x = true.
Proof.
  intros Hv Hm.
  induction ms as [| [n' [o' t']] ms IH]; [discriminate |].
  rewrite members_ok_cons in Hv. apply andb_true_iff in Hv as [Hh Ht].
  cbn [find_member] in Hm. destruct (String.eqb n' n) eqn:E.
  - apply String.eqb_eq in E. subst n'. injection Hm as -> ->.
    destruct (fs !! n) as [x |]; [| discriminate].
    exists x. split; [reflexivity |].
    rewrite orb_false_r in Hh. exact Hh.
  - apply IH; assumption.
Qed.

(** A value of an object type has every required member, at the member's
    type. *)
Lemma has_type_required ms v n t :
  has_type (TObject ms) v = true ->
  find_member n ms = Some (false, t) ->
  exists x, get v [n] = Some x /\ has_type t x = true.
Proof.
  intros Hv Hm.
  destruct (has_type_object_inv _ _ Hv) as (fs & _ & _ & Hfs & Hget).
  rewrite Hget. exact (members_ok_required _ _ _ _ Hfs Hm).
Qed.

(** An optional member is missing, [undefined], or at the member's type. *)
Lemma has_type_optional ms v n t :
  has_type (TObject ms) v = true ->
  find_member n ms = Some (true, t) ->
  get v [n] = None \/ get v [n] = Some VUndefined
  \/ exists x, get v [n] = Some x /\ has_type t x = true.
Proof.
  intros Hv Hm.
  destruct (has_type_object_inv _ _ Hv) as (fs & _ & _ & Hfs & Hget).
  rewrite Hget. clear Hv Hget. rename Hfs into Hv.
  induction ms as [| [n' [o' t']] ms IH]; [discriminate |].
  rewrite members_ok_cons in Hv. apply andb_true_iff in Hv as [Hh Ht].
  cbn [find_member] in Hm. destruct (String.eqb n' n) eqn:E.
  - apply String.eqb_eq in E. subst n'. injection Hm as -> ->.
    destruct (fs !! n) as [x |]; [| left; reflexivity].
    right. apply orb_true_iff in Hh as [Hh | Hh].
    + right. eauto.
    + left. destruct x; try discriminate. reflexivity.
  - apply IH; assumption.
Qed.

Lemma has_type_union ts v :
  has_type (TUnion ts) v = existsb (fun t => has_type t v) ts.
Proof.
  unfold has_type. cbn [has_type_at].
  induction ts as [| t ts IH]; [reflexivity |].
  cbn [existsb]. rewrite <- IH. reflexivity.
Qed.

Lemma has_type_at_inter w ts v :
  has_type_at w (TInter ts) v
  = (negb w || inter_weak_ok ts v)
    && forallb (fun t => has_type_at false t v) ts.
Proof. reflexivity. Qed.

Lemma no_fields_empty (fs : gmap string Val) : no_fields fs = true <-> fs = ∅.
Proof.
  unfold no_fields. rewrite <- map_to_list_empty_iff.
  destruct (map_to_list fs); split; congruence.
Qed.

Lemma has_field_some (fs : gmap string Val) n :
  has_field fs n = true <-> is_Some (fs !! n).
Proof.
  unfold has_field. destruct (fs !! n); split; try discriminate; eauto.
  intros [x H]; discriminate.
Qed.

(** What a weak type asks: no member at all, or one of its own. *)
Lemma shares_spec names (fs : gmap string Val) :
  shares names fs = true <->
  fs = ∅ \/ exists n, n ∈ names /\ is_Some (fs !! n).
Proof.
  unfold shares. rewrite orb_true_iff, no_fields_empty, existsb_exists.
  split; (intros [H | (n & Hn & Hf)]; [left; exact H | right; exists n]).
  - split; [apply list_elem_of_In; exact Hn | apply has_field_some; exact Hf].
  - split; [apply list_elem_of_In; exact Hn | apply has_field_some; exact Hf].
Qed.



Lemma has_type_number x : has_type TNumber x = true -> exists n, x = VNum n.
Proof. destruct x; simpl; try discriminate. eauto. Qed.

Lemma has_type_boolean x : has_type TBoolean x = true -> exists b, x = VBool b.
Proof. destruct x; simpl; try discriminate. eauto. Qed.

Lemma has_type_strlit s x : has_type (TStrLit s) x = true -> x = VStr s.
Proof.
  destruct x; simpl; try discriminate.
  intros H. apply String.eqb_eq in H. congruence.
Qed.

Lemma has_type_numlit n x : has_type (TNumLit n) x = true -> x = VNum n.
Proof.
  destruct x; simpl; try discriminate.
  intros H. apply Z.eqb_eq in H. congruence.
Qed.

Lemma has_type_external n args x :
  has_type (TExternal n args) x = true -> x = VForeign n.
Proof.
  destruct x; simpl; try discriminate.
  intros H. apply String.eqb_eq in H. congruence.
Qed.

Lemma has_type_node t x :
  has_type (TNode t) x = true -> exists y, x = VNode y /\ has_type t y = true.
Proof. destruct x; simpl; try discriminate. eauto. Qed.

Lemma has_type_node_number x :
  has_type (TNode TNumber) x = true -> exists n, x = VNode (VNum n).
Proof.
  intros H. apply has_type_node in H as (y & -> & Hy).
  apply has_type_number in Hy as [n ->]. eauto.
Qed.

Lemma has_type_union2 a b x :
  has_type (TUnion [a; b]) x = true ->
  has_type a x = true \/ has_type b x = true.
Proof.
  rewrite has_type_union. cbn [existsb].
  rewrite orb_false_r. apply orb_true_iff.
Qed.

(** A required member that holds a number, read through a path. *)
Lemma required_number ms v n :
  has_type (TObject ms) v = true ->
  find_member n ms = Some (false, TNumber) ->
  exists z, get v [n] = Some (VNum z).
Proof.
  intros Hv Hm. destruct (has_type_required _ _ _ _ Hv Hm) as (x & Hx & Ht).
  apply has_type_number in Ht as [z ->]. eauto.
Qed.

End TsFacts.

(** ** The data contracts *)

Module StackTypesFacts.
Import Ts TsFacts StackTypes.

(** C2: the event map has the two members [transitionStart] and
    [transitionEnd] and no other; both are required, and every value of the
    payload type of either has a boolean field [closing]. *)
Theorem event_map_transition_events (ev : string) (o : bool) (payload : Ty)
    (v : Val) :
  member_names StackNavigationEventMap = ["transitionStart"; "transitionEnd"]
  /\ (member StackNavigationEventMap ev = Some (o, payload) ->
      has_type payload v = true ->
      o = false /\ member_names payload = ["closing"]
      /\ exists b : bool, get v ["closing"] = Some (VBool b)).
Proof.
  split; [reflexivity |].
  intros Hm Hv.
  assert (payload = TObject [req "closing" TBoolean] /\ o = false) as [-> ->].
  { unfold member, StackNavigationEventMap in Hm.
    cbn [members_of find_member req] in Hm.
    destruct (String.eqb "transitionStart" ev);
      [injection Hm as -> ->; split; reflexivity |].
    destruct (String.eqb "transitionEnd" ev);
      [injection Hm as -> ->; split; reflexivity | discriminate]. }
  split; [reflexivity |]. split; [reflexivity |].
  destruct (has_type_required _ _ "closing" TBoolean Hv eq_refl)
    as (x & Hx & Ht).
  apply has_type_boolean in Ht as [b ->]. eauto.
Qed.

Lemma event_map_transition_events_witness :
  exists b : bool, get closingPayload ["closing"] = Some (VBool b).
Proof.
  apply (proj2 (event_map_transition_events "transitionEnd" false
                  (TObject [req "closing" TBoolean]) closingPayload)
           eq_refl eq_refl).
Defined.

(** [required Hv n as x Hx Ht]: the required member [n] of a typed object. *)
Ltac required Hv n x Hx Ht :=
  let H := fresh in
  pose proof (has_type_required _ _ n _ Hv eq_refl) as H;
  destruct H as (x & Hx & Ht).

Lemma resolve_card_interpolator :
  resolve StackCardStyleInterpolator = StackCardStyleInterpolator.
Proof. reflexivity. Qed.

(** C4: the card style interpolator takes one argument, the props, and
    returns the interpolated style.  The props have the members [current],
    [next], [index], [closing], [layouts] and [insets] and no other; in
    every value of the props type [current.progress] is a node holding a
    number, [next] is missing, undefined or has such a [progress], [index]
    is a number, [closing] is a node holding 0 or 1, [layouts.screen] has a
    numeric [width] and [height], and [insets] has numeric [top], [right],
    [bottom] and [left].  The style has the members [containerStyle],
    [cardStyle], [overlayStyle] and [shadowStyle] (each declared optional,
    of type [any]) and no other. *)
Theorem card_interpolator_contract (v : Val) (args : list Val) :
  (accepts StackCardStyleInterpolator args = true <->
     exists p, args = [p] /\ has_type StackCardInterpolationProps p = true)
  /\ result_of StackCardStyleInterpolator = Some StackCardInterpolatedStyle
  /\ member_names StackCardInterpolationProps
     = ["current"; "next"; "index"; "closing"; "layouts"; "insets"]
  /\ members_of StackCardInterpolatedStyle
     = [opt "containerStyle" TAny; opt "cardStyle" TAny;
        opt "overlayStyle" TAny; opt "shadowStyle" TAny]
  /\ (has_type StackCardInterpolationProps v = true ->
      (exists p : Z, get v ["current"; "progress"] = Some (VNode (VNum p)))
      /\ (get v ["next"] = None \/ get v ["next"] = Some VUndefined
          \/ exists p : Z, get v ["next"; "progress"] = Some (VNode (VNum p)))
      /\ (exists i : Z, get v ["index"] = Some (VNum i))
      /\ (exists c : Z,
            get v ["closing"] = Some (VNode (VNum c)) /\ (c = 0 \/ c = 1))
      /\ (exists w h : Z,
            get v ["layouts"; "screen"; "width"] = Some (VNum w)
            /\ get v ["layouts"; "screen"; "height"] = Some (VNum h))
      /\ (exists t r b l : Z,
            get v ["insets"; "top"] = Some (VNum t)
            /\ get v ["insets"; "right"] = Some (VNum r)
            /\ get v ["insets"; "bottom"] = Some (VNum b)
            /\ get v ["insets"; "left"] = Some (VNum l))).
Proof.
  split.
  { unfold accepts. rewrite resolve_card_interpolator.
    unfold StackCardStyleInterpolator, req. cbn [accepts_params].
    destruct args as [| p [| q args]].
    - split; [discriminate | intros (p & Hp & _); discriminate].
    - cbn [accepts_params]. rewrite andb_true_r, orb_false_r.
      split; [intros H; eauto |].
      intros (p' & Hp & Ht). injection Hp as ->. exact Ht.
    - cbn [accepts_params]. rewrite andb_false_r.
      split; [discriminate | intros (p' & Hp & _); discriminate]. }
  split; [reflexivity |]. split; [reflexivity |]. split; [reflexivity |].
  intros Hv. repeat split.
  - required Hv "current" x Hx Ht. required Ht "progress" y Hy Hn.
    apply has_type_node_number in Hn as [p ->].
    exists p. exact (get_step _ _ _ _ _ Hx Hy).
  - destruct (has_type_optional _ _ "next" _ Hv eq_refl)
      as [H | [H | (x & Hx & Ht)]]; [tauto | tauto |].
    right; right. required Ht "progress" y Hy Hn.
    apply has_type_node_number in Hn as [p ->].
    exists p. exact (get_step _ _ _ _ _ Hx Hy).
  - exact (required_number _ _ "index" Hv eq_refl).
  - required Hv "closing" x Hx Ht.
    apply has_type_node in Ht as (y & -> & Hy).
    apply has_type_union2 in Hy as [Hy | Hy];
      apply has_type_numlit in Hy; subst y; eauto.
  - required Hv "layouts" x Hx Ht. required Ht "screen" y Hy Hl.
    destruct (required_number _ _ "width" Hl eq_refl) as [w Hw].
    destruct (required_number _ _ "height" Hl eq_refl) as [h Hh].
    exists w, h. split.
    + exact (get_step _ _ _ _ _ Hx (get_step _ _ _ _ _ Hy Hw)).
    + exact (get_step _ _ _ _ _ Hx (get_step _ _ _ _ _ Hy Hh)).
  - required Hv "insets" x Hx Ht.
    destruct (required_number _ _ "top" Ht eq_refl) as [t Ht'].
    destruct (required_number _ _ "right" Ht eq_refl) as [r Hr].
    destruct (required_number _ _ "bottom" Ht eq_refl) as [b Hb].
    destruct (required_number _ _ "left" Ht eq_refl) as [l Hl].
    exists t, r, b, l.
    repeat split; eapply get_step; eassumption.
Qed.

Lemma card_interpolator_contract_witness :
  exists c : Z,
    get someCardProps ["closing"] = Some (VNode (VNum c)) /\ (c = 0 \/ c = 1).
Proof.
  pose proof (card_interpolator_contract someCardProps [someCardProps])
    as (_ & _ & _ & _ & H).
  exact (proj1 (proj2 (proj2 (proj2 (H eq_refl))))).
Defined.

Lemma spring_variant_shaped v :
  has_type
    (TObject [req "animation" (TStrLit "spring"); req "config" SpringConfig])
    v = true ->
  spring_shaped v.
Proof.
  intros Hv. required Hv "animation" a Ha Hs. apply has_type_strlit in Hs as ->.
  required Hv "config" c Hc Ht. split; [exact Ha |].
  destruct (required_number _ _ "damping" Ht eq_refl) as [d Hd].
  destruct (required_number _ _ "mass" Ht eq_refl) as [m Hm].
  destruct (required_number _ _ "stiffness" Ht eq_refl) as [k Hk].
  destruct (required_number _ _ "restSpeedThreshold" Ht eq_refl) as [rs Hrs].
  destruct (required_number _ _ "restDisplacementThreshold" Ht eq_refl)
    as [rd Hrd].
  required Ht "overshootClamping" oc Hoc Hb.
  apply has_type_boolean in Hb as [b ->].
  exists d, m, k, rs, rd, b.
  repeat split; eapply get_step; eassumption.
Qed.

Lemma timing_variant_shaped v :
  has_type
    (TObject [req "animation" (TStrLit "timing"); req "config" TimingConfig])
    v = true ->
  timing_shaped v.
Proof.
  intros Hv. required Hv "animation" a Ha Hs. apply has_type_strlit in Hs as ->.
  required Hv "config" c Hc Ht. split; [exact Ha |].
  destruct (required_number _ _ "duration" Ht eq_refl) as [d Hd].
  required Ht "easing" e He Hx. apply has_type_external in Hx as ->.
  exists d. split; eapply get_step; eassumption.
Qed.

Lemma spring_not_timing v : spring_shaped v -> timing_shaped v -> False.
Proof. intros [Hs _] [Ht _]. rewrite Hs in Ht. discriminate. Qed.

(** C6: a value of type [TransitionSpec] is laid out as exactly one of the
    two variants: [animation] is ['spring'] and [config] holds numeric
    [damping], [mass], [stiffness], [restSpeedThreshold] and
    [restDisplacementThreshold] and a boolean [overshootClamping], or
    [animation] is ['timing'] and [config] holds a numeric [duration] and an
    [easing] function; the two configs declare these members and no other.
    The member [transitionSpec] of a preset is an object with the members
    [open] and [close] and no other, and in every preset value both hold a
    [TransitionSpec]. *)
Theorem transition_spec_variants (v preset : Val) :
  member_names SpringConfig
  = ["damping"; "mass"; "stiffness"; "restSpeedThreshold";
     "restDisplacementThreshold"; "overshootClamping"]
  /\ member_names TimingConfig = ["duration"; "easing"]
  /\ member TransitionPreset "transitionSpec"
     = Some (false, TObject [req "open" TransitionSpec;
                             req "close" TransitionSpec])
  /\ (has_type TransitionSpec v = true ->
      (spring_shaped v /\ ~ timing_shaped v)
      \/ (timing_shaped v /\ ~ spring_shaped v))
  /\ (has_type TransitionPreset preset = true ->
      exists o c : Val,
        get preset ["transitionSpec"; "open"] = Some o
        /\ get preset ["transitionSpec"; "close"] = Some c
        /\ has_type TransitionSpec o = true
        /\ has_type TransitionSpec c = true).
Proof.
  split; [reflexivity |]. split; [reflexivity |]. split; [reflexivity |].
  split.
  - intros Hv. apply has_type_union2 in Hv as [Hv | Hv].
    + left. apply spring_variant_shaped in Hv.
      split; [exact Hv | intros Ht; exact (spring_not_timing v Hv Ht)].
    + right. apply timing_variant_shaped in Hv.
      split; [exact Hv | intros Hs; exact (spring_not_timing v Hs Hv)].
  - intros Hp. required Hp "transitionSpec" t Ht Hts.
    required Hts "open" o Ho Hot. required Hts "close" c Hc Hct.
    exists o, c. repeat split; try assumption; eapply get_step; eassumption.
Qed.

Lemma transition_spec_variants_witness :
  (spring_shaped someTiming /\ ~ timing_shaped someTiming)
  \/ (timing_shaped someTiming /\ ~ spring_shaped someTiming).
Proof.
  exact (proj1 (proj2 (proj2 (proj2
           (transition_spec_variants someTiming VUndefined)))) eq_refl).
Defined.











End StackTypesFacts.

(** ** Scenes *)

Module StackViewFacts.
Import Ts TsFacts StackView.

Lemma progress_object_current p :
  get (progress_object p) ["current"] = Some (VNode (VNum (current p))).
Proof.
  unfold progress_object. rewrite get_field.
  destruct p as [c [n |] [q |]]; reflexivity.
Qed.

Lemma progress_object_next p :
  get (progress_object p) ["next"] = (fun n => VNode (VNum n)) <$> next p.
Proof.
  unfold progress_object. rewrite get_field.
  destruct p as [c [n |] [q |]]; reflexivity.
Qed.

Lemma progress_object_previous p :
  get (progress_object p) ["previous"]
  = (fun n => VNode (VNum n)) <$> previous p.
Proof.
  unfold progress_object. rewrite get_field.
  destruct p as [c [n |] [q |]]; reflexivity.
Qed.

Lemma progress_object_typed p :
  has_type StackTypes.SceneProgress (progress_object p) = true.
Proof. destruct p as [c [n |] [q |]]; reflexivity. Qed.

(** C7: the [progress] member of a scene declares [current], [next] and
    [previous] and no other, [current] required and the other two optional.
    For the scene built for the screen at position [i] of the mounted
    screens, the progress object is of that type, [current] is the screen's
    own progress, [next] is missing exactly when the screen is the last
    one, and [previous] is missing exactly when it is the first one. *)
Theorem scene_progress_references (screens : list Mounted) (i : nat)
    (sc : SceneView) :
  members_of StackTypes.SceneProgress
  = [req "current" (TNode TNumber); opt "next" (TNode TNumber);
     opt "previous" (TNode TNumber)]
  /\ (scenes screens !! i = Some sc ->
      has_type StackTypes.SceneProgress
        (progress_object (scene_progress sc)) = true
      /\ (exists s : Mounted,
            screens !! i = Some s
            /\ get (progress_object (scene_progress sc)) ["current"]
               = Some (VNode (VNum (progress s))))
      /\ (get (progress_object (scene_progress sc)) ["next"] = None
          <-> S i = length screens)
      /\ (get (progress_object (scene_progress sc)) ["previous"] = None
          <-> i = O)).
Proof.
  split; [reflexivity |].
  unfold scenes. rewrite list_lookup_imap.
  destruct (screens !! i) as [s |] eqn:Hs; [| discriminate].
  intros [= <-].
  pose proof (lookup_lt_Some _ _ _ Hs) as Hlt.
  split; [apply progress_object_typed |]. split.
  { exists s. split; [reflexivity |]. apply progress_object_current. }
  split.
  - rewrite progress_object_next. cbn [scene scene_progress next].
    rewrite !fmap_None, lookup_ge_None. lia.
  - rewrite progress_object_previous. cbn [scene scene_progress previous].
    destruct i as [| j]; [tauto |].
    rewrite !fmap_None, lookup_ge_None. lia.
Qed.

Lemma scene_progress_references_witness :
  get (progress_object (scene_progress topScene)) ["next"] = None
  /\ get (progress_object (scene_progress topScene)) ["previous"]
     = Some (VNode (VNum 1)).
Proof.
  pose proof (proj2 (scene_progress_references twoScreens 1 topScene) eq_refl)
    as (_ & _ & Hn & _).
  split; [apply Hn |]; reflexivity.
Defined.

End StackViewFacts.

(** ** Gesture response distance *)

Module GestureFacts.
Import Ts TsFacts StackTypes Gesture.

Lemma override_object o m :
  override (VObject o) m
  = match o !! m with Some (VNum d) => Some d | _ => None end.
Proof. unfold override. rewrite get_field. reflexivity. Qed.

(** C8: [gestureResponseDistance] is an optional option whose value has the
    two optional numeric members [vertical] and [horizontal].  Without an
    override the distance is 25 for the horizontal direction and 135 for
    the vertical one; each direction reads its own member, which replaces
    the default, and is not affected by the member of the other
    direction. *)
Theorem gesture_response_distance (o : gmap string Val) (d : Z) :
  member StackNavigationOwnOptions "gestureResponseDistance"
  = Some (true, TObject [opt "vertical" TNumber; opt "horizontal" TNumber])
  /\ responseDistance horizontal VUndefined = 25
  /\ responseDistance vertical VUndefined = 135
  /\ (o !! "horizontal" = None -> responseDistance horizontal (VObject o) = 25)
  /\ (o !! "vertical" = None -> responseDistance vertical (VObject o) = 135)
  /\ responseDistance horizontal (VObject (<["horizontal" := VNum d]> o)) = d
  /\ responseDistance vertical (VObject (<["vertical" := VNum d]> o)) = d
  /\ responseDistance horizontal (VObject (<["vertical" := VNum d]> o))
     = responseDistance horizontal (VObject o)
  /\ responseDistance vertical (VObject (<["horizontal" := VNum d]> o))
     = responseDistance vertical (VObject o).
Proof.
  unfold responseDistance. rewrite !override_object.
  split; [reflexivity |]. split; [reflexivity |]. split; [reflexivity |].
  split; [intros ->; reflexivity |]. split; [intros ->; reflexivity |].
  rewrite !lookup_insert_eq.
  rewrite (lookup_insert_ne o "vertical" "horizontal") by discriminate.
  rewrite (lookup_insert_ne o "horizontal" "vertical") by discriminate.
  repeat split.
Qed.

Lemma gesture_response_distance_witness :
  responseDistance horizontal (VObject {["vertical" := VNum 200]}) = 25
  /\ responseDistance vertical (VObject {["vertical" := VNum 200]}) = 200.
Proof.
  pose proof (gesture_response_distance {["vertical" := VNum 200]} 200)
    as (_ & _ & _ & Hh & _).
  pose proof (gesture_response_distance ∅ 200)
    as (_ & _ & _ & _ & _ & _ & Hv & _).
  split; [exact (Hh eq_refl) | exact Hv].
Defined.

End GestureFacts.

(** ** Frames and presses *)

Module FrameFacts.
Import Navigator NavigatorFacts Component.

Lemma usersOf_cons_user u ls : usersOf (User u :: ls) = u :: usersOf ls.
Proof. reflexivity. Qed.

Lemma usersOf_cons_stack st ls : usersOf (StackTabPress st :: ls) = usersOf ls.
Proof. reflexivity. Qed.

(** Delivery to any listeners, from any world. *)
Lemma deliver_spec ls e w :
  foldl (fun w l => runListener l e w) w ls
  = {| focused := focusAfter (usersOf ls) (focused w);
       events := mark (anyPrevents (usersOf ls)) e (events w);
       frames := frames w ++ queued ls e (focused w);
       dispatched := dispatched w |}.
Proof.
  revert w; induction ls as [| [st | u] ls IH]; intros w.
  - destruct w; simpl. rewrite app_nil_r. reflexivity.
  - cbn [foldl runListener]. rewrite IH, usersOf_cons_stack.
    unfold tabPressListener, requestAnimationFrame. cbn [focused events frames
      dispatched queued]. rewrite <- app_assoc. reflexivity.
  - cbn [foldl runListener]. rewrite IH, usersOf_cons_user. clear IH.
    destruct u as [p f]. unfold runUser, anyPrevents, focusAfter.
    cbn [callsPreventDefault changesFocusTo existsb foldl queued].
    destruct p, f; cbn; try reflexivity;
      f_equal; apply (mark_mark true).
Qed.

Lemma emit_spec ls w :
  emit ls w
  = {| focused := focusAfter (usersOf ls) (focused w);
       events := mark (anyPrevents (usersOf ls)) (length (events w))
                   (events w ++ [false]);
       frames := frames w ++ queued ls (length (events w)) (focused w);
       dispatched := dispatched w |}.
Proof. unfold emit. rewrite deliver_spec. reflexivity. Qed.

Section WithRouter.
Variable popToTop : gmap string Val.

Lemma pending_cons flags cb cbs :
  pending popToTop flags (cb :: cbs)
  = (if fires flags cb then [resetAction popToTop (cb_state cb)] else [])
    ++ pending popToTop flags cbs.
Proof.
  unfold pending. cbn [omap list_omap]. destruct (fires flags cb); reflexivity.
Qed.

Lemma pending_app flags cbs1 cbs2 :
  pending popToTop flags (cbs1 ++ cbs2)
  = pending popToTop flags cbs1 ++ pending popToTop flags cbs2.
Proof. unfold pending. apply omap_app. Qed.

Lemma frameCallback_spec cb w :
  frameCallback popToTop cb w
  = {| focused := focused w; events := events w; frames := frames w;
       dispatched := dispatched w ++ pending popToTop (events w) [cb] |}.
Proof.
  unfold frameCallback, pending, fires, defaultPrevented. cbn [omap list_omap].
  destruct (_ && _ && _); cbn.
  - reflexivity.
  - rewrite app_nil_r. destruct w; reflexivity.
Qed.

(** A frame runs every waiting callback against the flags as they are
    when the frame starts, and leaves nothing waiting. *)
Lemma runFrame_spec w :
  runFrame popToTop w
  = {| focused := focused w; events := events w; frames := [];
       dispatched := dispatched w ++ pending popToTop (events w) (frames w) |}.
Proof.
  unfold runFrame.
  assert (H : forall cbs w0,
    foldl (fun w cb => frameCallback popToTop cb w) w0 cbs
    = {| focused := focused w0; events := events w0; frames := frames w0;
         dispatched := dispatched w0 ++ pending popToTop (events w0) cbs |}).
  { induction cbs as [| cb cbs IH]; intros w0.
    - cbn. rewrite app_nil_r. destruct w0; reflexivity.
    - cbn [foldl]. rewrite IH, frameCallback_spec. cbn [focused events frames
        dispatched]. rewrite <- app_assoc.
      rewrite <- pending_app. reflexivity. }
  rewrite H. reflexivity.
Qed.

(** The callbacks of one emission all look at the emission's own event. *)
Lemma pending_queued flags ls e f :
  pending popToTop flags (queued ls e f)
  = if default false (flags !! e) then [] else resetsOf popToTop ls f.
Proof.
  revert f; induction ls as [| [st | u] ls IH]; intros f.
  - cbn. destruct (default false _); reflexivity.
  - cbn [queued resetsOf]. rewrite pending_cons, IH.
    unfold fires. cbn [cb_state cb_isFocused cb_event].
    destruct (default false (flags !! e)).
    + rewrite andb_false_r. reflexivity.
    + rewrite andb_true_r. reflexivity.
  - cbn [queued resetsOf]. apply IH.
Qed.

(** A callback whose event is allocated is not affected by what is done to
    a later event. *)
Lemma pending_older flags b cbs :
  Forall (fun cb => (cb_event cb < length flags)%nat) cbs ->
  pending popToTop (mark b (length flags) (flags ++ [false])) cbs
  = pending popToTop flags cbs.
Proof.
  intros H. induction H as [| cb cbs Hcb _ IH]; [reflexivity |].
  rewrite !pending_cons, IH.
  replace (fires (mark b (length flags) (flags ++ [false])) cb)
    with (fires flags cb); [reflexivity |].
  unfold fires. do 3 f_equal.
  destruct b; cbn [mark].
  - rewrite list_lookup_insert_ne by lia.
    rewrite lookup_app_l by exact Hcb. reflexivity.
  - rewrite lookup_app_l by exact Hcb. reflexivity.
Qed.

Lemma queued_event ls e f :
  Forall (fun cb => cb_event cb = e) (queued ls e f).
Proof.
  revert f; induction ls as [| [st | u] ls IH]; intros f; cbn [queued].
  - constructor.
  - constructor; [reflexivity | apply IH].
  - apply IH.
Qed.

Lemma presses_then_frame presses w :
  Forall (fun cb => (cb_event cb < length (events w))%nat) (frames w) ->
  dispatched (runFrame popToTop (foldl (fun w ls => emit ls w) w presses))
  = dispatched w ++ pending popToTop (events w) (frames w)
    ++ decidedAll popToTop presses (focused w).
Proof.
  revert w; induction presses as [| ls presses IH]; intros w Hw.
  - cbn [foldl decidedAll]. rewrite runFrame_spec, app_nil_r. reflexivity.
  - cbn [foldl decidedAll]. rewrite IH; rewrite emit_spec;
      cbn [focused events frames dispatched].
    + rewrite pending_app, (pending_older _ _ _ Hw), pending_queued.
      rewrite mark_fresh. unfold decided.
      rewrite <- !app_assoc. reflexivity.
    + rewrite mark_length, length_app. cbn [length].
      apply Forall_app. split.
      * eapply Forall_impl; [exact Hw |]. cbn. intros; lia.
      * eapply Forall_impl; [apply queued_event |]. cbn. intros; lia.
Qed.

Lemma resetsOf_sound ls f :
  Forall (fun a => exists st,
            StackTabPress st ∈ ls /\ 0 < index st
            /\ a = resetAction popToTop st
            /\ a !! "target" = Some (VStr (key st)))
    (resetsOf popToTop ls f).
Proof.
  revert f; induction ls as [| [st | u] ls IH]; intros f; cbn [resetsOf].
  - constructor.
  - apply Forall_app. split.
    + destruct (0 <? index st) eqn:Hi; cbn; [| constructor].
      destruct f; cbn; constructor; [| constructor].
      exists st. split; [left |]. split; [apply Z.ltb_lt; exact Hi |].
      split; [reflexivity | apply lookup_insert_eq].
    + eapply Forall_impl; [apply IH |]. cbn.
      intros a (st' & Hin & H). exists st'. split; [right; exact Hin | exact H].
  - eapply Forall_impl; [apply IH |]. cbn.
    intros a (st' & Hin & H). exists st'. split; [right; exact Hin | exact H].
Qed.

End WithRouter.

(** X1: a tab press delivered to any listeners, several stack navigators
    among them.  The next frame dispatches nothing when some listener
    prevented the default; otherwise it dispatches, in registration order,
    one action for each navigator whose index is above 0 and that was
    focused when its listener ran.  Every action dispatched is the
    pop-to-top action of one of the navigators, with that navigator's own
    key as target. *)
Theorem tabPress_with_any_listeners (popToTop : gmap string Val)
    (ls : list Listener) (w : World) :
  frames w = [] ->
  dispatched (runFrame popToTop (emit ls w))
  = dispatched w ++ decided popToTop ls (focused w)
  /\ (anyPrevents (usersOf ls) = true ->
      dispatched (runFrame popToTop (emit ls w)) = dispatched w)
  /\ (anyPrevents (usersOf ls) = false ->
      dispatched (runFrame popToTop (emit ls w))
      = dispatched w ++ resetsOf popToTop ls (focused w))
  /\ Forall (fun a => exists st,
              StackTabPress st ∈ ls /\ 0 < index st
              /\ a = resetAction popToTop st
              /\ a !! "target" = Some (VStr (key st)))
       (decided popToTop ls (focused w)).
Proof.
  intros Hq.
  assert (H : dispatched (runFrame popToTop (emit ls w))
              = dispatched w ++ decided popToTop ls (focused w)).
  { pose proof (presses_then_frame popToTop [ls] w) as H.
    cbn [foldl decidedAll] in H. rewrite H; rewrite Hq; [| constructor].
    cbn. rewrite app_nil_r. reflexivity. }
  rewrite H. unfold decided. repeat split.
  - intros ->. apply app_nil_r.
  - intros ->. reflexivity.
  - destruct (anyPrevents (usersOf ls)); [constructor | apply resetsOf_sound].
Qed.

Lemma tabPress_with_any_listeners_witness :
  dispatched
    (runFrame popToTopAction
       (emit [StackTabPress deepStack; StackTabPress shallowStack;
              StackTabPress nestedStack] idleWorld))
  = [resetAction popToTopAction deepStack;
     resetAction popToTopAction nestedStack].
Proof.
  exact (proj1 (tabPress_with_any_listeners popToTopAction
                  [StackTabPress deepStack; StackTabPress shallowStack;
                   StackTabPress nestedStack] idleWorld eq_refl)).
Defined.

(** X2: tab presses that arrive before the next frame are decided one by
    one, each on its own event object: the frame dispatches the outcome of
    the first press, then of the second, and so on.  Preventing one press
    does not touch the others, and a press repeated before the frame is
    dispatched again. *)
Theorem presses_before_a_frame (popToTop : gmap string Val)
    (presses : list (list Listener)) (w : World) :
  frames w = [] ->
  dispatched (runFrame popToTop (foldl (fun w ls => emit ls w) w presses))
  = dispatched w ++ decidedAll popToTop presses (focused w).
Proof.
  intros Hq. rewrite presses_then_frame; rewrite Hq; [| constructor].
  reflexivity.
Qed.

Lemma presses_before_a_frame_witness :
  dispatched
    (runFrame popToTopAction
       (emit [StackTabPress deepStack]
          (emit [StackTabPress deepStack; User preventer]
             (emit [StackTabPress deepStack] idleWorld))))
  = [resetAction popToTopAction deepStack;
     resetAction popToTopAction deepStack].
Proof.
  exact (presses_before_a_frame popToTopAction
           [[StackTabPress deepStack];
            [StackTabPress deepStack; User preventer];
            [StackTabPress deepStack]] idleWorld eq_refl).
Defined.

(** X3: the callback reads [defaultPrevented] when the frame runs, so a
    [preventDefault] that comes after delivery is over, but before the
    frame, still keeps every navigator from dispatching. *)
Theorem preventDefault_before_the_frame (popToTop : gmap string Val)
    (ls : list Listener) (w : World) :
  frames w = [] ->
  dispatched
    (runFrame popToTop (preventDefault (length (events w)) (emit ls w)))
  = dispatched w.
Proof.
  intros Hq. rewrite runFrame_spec, emit_spec.
  unfold preventDefault. cbn [focused events frames dispatched].
  rewrite Hq. cbn [app]. rewrite pending_queued.
  rewrite list_lookup_insert_eq.
  - apply app_nil_r.
  - rewrite mark_length, length_app. cbn. lia.
Qed.

Lemma preventDefault_before_the_frame_witness :
  dispatched
    (runFrame popToTopAction
       (preventDefault 0 (emit [StackTabPress deepStack] idleWorld)))
  = [].
Proof.
  exact (preventDefault_before_the_frame popToTopAction
           [StackTabPress deepStack] idleWorld eq_refl).
Defined.

Lemma usersOf_app ls1 ls2 : usersOf (ls1 ++ ls2) = usersOf ls1 ++ usersOf ls2.
Proof. unfold usersOf. apply bind_app. Qed.

(** X16: the navigator's listener neither prevents the default nor moves
    focus, and it dispatches nothing during delivery: the focus, the event
    objects and the dispatched actions after a delivery are the same with
    the navigator's listener among the listeners and without it. *)
Theorem navigator_listener_does_not_interfere (ls1 : list Listener)
    (st : StackNavigationState) (ls2 : list Listener) (w : World) :
  focused (emit (ls1 ++ StackTabPress st :: ls2) w)
  = focused (emit (ls1 ++ ls2) w)
  /\ events (emit (ls1 ++ StackTabPress st :: ls2) w)
     = events (emit (ls1 ++ ls2) w)
  /\ dispatched (emit (ls1 ++ StackTabPress st :: ls2) w)
     = dispatched (emit (ls1 ++ ls2) w).
Proof.
  rewrite !emit_spec. cbn [focused events dispatched].
  rewrite !usersOf_app, usersOf_cons_stack. repeat split.
Qed.

(** X4: the frame callback asks for no further frame.  After a frame
    nothing is waiting, and running another frame changes nothing: a tab
    press resets a stack at most once. *)
Theorem frame_runs_callbacks_once (popToTop : gmap string Val) (w : World) :
  frames (runFrame popToTop w) = []
  /\ runFrame popToTop (runFrame popToTop w) = runFrame popToTop w.
Proof.
  split; [rewrite runFrame_spec; reflexivity |].
  rewrite (runFrame_spec popToTop (runFrame popToTop w)).
  rewrite (runFrame_spec popToTop w). cbn [focused events frames dispatched].
  unfold pending at 1. cbn. rewrite app_nil_r. reflexivity.
Qed.

End FrameFacts.

(** ** Rendering *)

Module RenderFacts.
Import Navigator Component.

Lemma rest_lookup props name :
  rest props !! name
  = if bool_decide (name ∈ ["keyboardHandlingEnabled"; "initialRouteName";
                            "children"; "screenOptions"])
    then None else props !! name.
Proof.
  unfold rest. case_bool_decide as H.
  - set_unfold. destruct H as [H | [H | [H | [H | []]]]]; subst name;
      simplify_map_eq; reflexivity.
  - set_unfold. rewrite !lookup_delete_ne by (intros ?; subst; tauto).
    reflexivity.
Qed.

Section WithBuilder.
Variable useNavigationBuilder : gmap string Val -> Built.

Lemma stackViewProps_lookup props kmProps name :
  stackViewProps useNavigationBuilder props kmProps !! name
  = match kmProps !! name with
    | Some v => Some v
    | None =>
        match rest props !! name with
        | Some v => Some v
        | None =>
            builtProps (useNavigationBuilder (builderOptions props)) !! name
        end
    end.
Proof.
  unfold stackViewProps. rewrite !lookup_union.
  destruct (kmProps !! name); [apply union_Some_l |].
  rewrite (left_id None _).
  destruct (rest props !! name); [apply union_Some_l |].
  rewrite (left_id None _). reflexivity.
Qed.

End WithBuilder.

(** X5: the four props that the navigator takes for itself,
    [keyboardHandlingEnabled], [initialRouteName], [children] and
    [screenOptions], are never passed on: under each of these names
    [StackView] gets what the keyboard manager supplies, or nothing. *)
Theorem consumed_props_are_not_forwarded
    (useNavigationBuilder : gmap string Val -> Built)
    (props kmProps : gmap string Val) (name : string) :
  name ∈ ["keyboardHandlingEnabled"; "initialRouteName"; "children";
          "screenOptions"] ->
  km_children (StackNavigator useNavigationBuilder props) kmProps !! name
  = kmProps !! name.
Proof.
  intros H. cbn [StackNavigator km_children].
  rewrite stackViewProps_lookup, rest_lookup.
  rewrite bool_decide_eq_true_2 by exact H.
  destruct (kmProps !! name); [reflexivity |].
  set_unfold. destruct H as [H | [H | [H | [H | []]]]]; subst name;
    reflexivity.
Qed.

Lemma consumed_props_are_not_forwarded_witness :
  km_children (StackNavigator someBuilder someProps) ∅
    !! "keyboardHandlingEnabled" = None.
Proof.
  rewrite (consumed_props_are_not_forwarded someBuilder someProps ∅
             "keyboardHandlingEnabled"); [reflexivity | repeat constructor].
Defined.

(** X6: how the props of [StackView] are put together.  What the keyboard
    manager supplies wins; any other prop of the navigator besides the four
    it takes for itself is passed on unchanged (also one called [state],
    [descriptors] or [navigation], which then replaces the builder's
    value); and where neither gives one, [state], [descriptors] and
    [navigation] are those of the builder. *)
Theorem stack_view_props_precedence
    (useNavigationBuilder : gmap string Val -> Built)
    (props kmProps : gmap string Val) (name : string) (v : Val) :
  (kmProps !! name = Some v ->
   km_children (StackNavigator useNavigationBuilder props) kmProps !! name
   = Some v)
  /\ (kmProps !! name = None -> props !! name = Some v ->
      name ∉ ["keyboardHandlingEnabled"; "initialRouteName"; "children";
              "screenOptions"] ->
      km_children (StackNavigator useNavigationBuilder props) kmProps !! name
      = Some v)
  /\ (kmProps !! name = None -> props !! name = None ->
      km_children (StackNavigator useNavigationBuilder props) kmProps !! name
      = if bool_decide (name = "state")
        then Some (b_state (useNavigationBuilder (builderOptions props)))
        else if bool_decide (name = "descriptors")
        then Some (b_descriptors (useNavigationBuilder (builderOptions props)))
        else if bool_decide (name = "navigation")
        then Some (b_navigation (useNavigationBuilder (builderOptions props)))
        else None).
Proof.
  cbn [StackNavigator km_children]. rewrite stackViewProps_lookup, rest_lookup.
  split; [intros ->; reflexivity |]. split.
  - intros -> Hp Hn. rewrite bool_decide_eq_false_2 by exact Hn.
    rewrite Hp. reflexivity.
  - intros -> Hp. rewrite Hp.
    replace (if bool_decide _ then None else None) with (@None Val)
      by (case_bool_decide; reflexivity).
    unfold builtProps.
    repeat case_bool_decide; subst; simplify_map_eq; reflexivity.
Qed.

Lemma stack_view_props_precedence_witness :
  km_children (StackNavigator someBuilder someProps) ∅ !! "mode"
  = Some (VStr "modal")
  /\ km_children (StackNavigator someBuilder someProps) ∅ !! "state"
     = Some (VForeign "StackNavigationState").
Proof.
  split.
  - apply (proj1 (proj2 (stack_view_props_precedence someBuilder someProps ∅
                           "mode" (VStr "modal"))));
      [reflexivity | reflexivity |].
    set_unfold. intuition discriminate.
  - apply (proj2 (proj2 (stack_view_props_precedence someBuilder someProps ∅
                           "state" VUndefined)));
      reflexivity.
Defined.

(** X7: the builder is given an object with exactly the members
    [initialRouteName], [children] and [screenOptions]; a member the props
    lack is there as [undefined]; and no other prop of the navigator has
    any influence on what the builder is given. *)
Theorem builder_gets_three_options (props : gmap string Val) (name : string)
    (v : Val) :
  dom (builderOptions props)
  = ({["initialRouteName"; "children"; "screenOptions"]} : gset string)
  /\ (name ∈ ["initialRouteName"; "children"; "screenOptions"] ->
      builderOptions props !! name = Some (default VUndefined (props !! name)))
  /\ (name ∉ ["initialRouteName"; "children"; "screenOptions"] ->
      builderOptions (<[name := v]> props) = builderOptions props
      /\ builderOptions (delete name props) = builderOptions props).
Proof.
  unfold builderOptions, prop. split; [| split].
  - rewrite !dom_insert_L, dom_singleton_L. set_solver.
  - set_unfold. intros [H | [H | [H | []]]]; subst name; simplify_map_eq;
      reflexivity.
  - set_unfold. intros H.
    rewrite !lookup_insert_ne, !lookup_delete_ne by (intros ?; subst; tauto).
    split; reflexivity.
Qed.

Lemma builder_gets_three_options_witness :
  builderOptions someProps !! "children" = Some VUndefined
  /\ builderOptions (<["mode" := VStr "card"]> someProps)
     = builderOptions someProps.
Proof.
  split.
  - apply (proj1 (proj2 (builder_gets_three_options someProps "children"
                           VUndefined))).
    repeat constructor.
  - apply (proj2 (proj2 (builder_gets_three_options someProps "mode"
                           (VStr "card")))).
    set_unfold. intuition discriminate.
Defined.

End RenderFacts.

(** ** The effect over the life of the component *)

Module EffectFacts.
Import Navigator NavigatorFacts Component.

Lemma last_cons_default {A} (l : list A) (a d : A) :
  List.last (a :: l) d = List.last l a.
Proof.
  revert a d; induction l as [| b l IH]; intros a d; [reflexivity |].
  change (List.last (a :: b :: l) d) with (List.last (b :: l) d).
  rewrite (IH b d), (IH b a). reflexivity.
Qed.

Lemma filter_all {A} (P : A -> Prop) `{forall x, Decision (P x)} (l : list A) :
  Forall P l -> filter P l = l.
Proof.
  induction 1 as [| x l Hx _ IH]; [reflexivity |].
  rewrite filter_cons_True by exact Hx. rewrite IH. reflexivity.
Qed.

(** Equal dependencies: the same navigation object, index and key. *)
Lemma depsOf_inj r1 r2 :
  depsOf r1 = depsOf r2 ->
  nav_id (r_navigation r1) = nav_id (r_navigation r2)
  /\ r_state r1 = r_state r2.
Proof.
  unfold depsOf. intros [= Hn Hi Hk]. split; [exact Hn |].
  destruct (r_state r1), (r_state r2); cbn in *. congruence.
Qed.

Lemma effect_inPlace reg0 r reg :
  subscriptions reg = subscriptions reg0 ->
  (next_id reg0 <= next_id reg)%nat ->
  inPlace reg0 r
    ({| eff_deps := depsOf r; eff_cleanup := (effect r reg).1 |},
     (effect r reg).2).
Proof.
  intros Hs Hn. unfold inPlace, effect.
  destruct (nav_addListener (r_navigation r)); cbn.
  - rewrite Hs. repeat split; lia.
  - repeat split; assumption.
Qed.

Lemma runCleanup_inPlace reg0 cur s :
  wellFormed reg0 -> inPlace reg0 cur s ->
  subscriptions (runCleanup s.1 s.2) = subscriptions reg0
  /\ next_id (runCleanup s.1 s.2) = next_id s.2.
Proof.
  intros Hwf (_ & Hn & Hc). unfold runCleanup.
  destruct (eff_cleanup s.1) as [id |]; [| split; [exact Hc | reflexivity]].
  destruct Hc as (Hid & Hs). split; [| reflexivity].
  cbn [unsubscribe subscriptions]. rewrite Hs, filter_app.
  rewrite filter_all.
  - rewrite filter_cons_False, filter_nil by (cbn; tauto). apply app_nil_r.
  - eapply Forall_impl; [exact Hwf |]. cbn. intros; lia.
Qed.

Lemma commit_first reg0 r : inPlace reg0 r (commit None r reg0).
Proof. apply effect_inPlace; [reflexivity | lia]. Qed.

Lemma commit_next reg0 cur s r :
  wellFormed reg0 -> inPlace reg0 cur s ->
  inPlace reg0 r (commit (Some s.1) r s.2).
Proof.
  intros Hwf Hin. unfold commit. case_decide as Hd.
  - destruct Hin as (He & Hn & Hc). rewrite He in Hd.
    apply depsOf_inj in Hd as [Hnav Hst].
    unfold inPlace. cbn [fst snd]. rewrite <- Hnav, <- Hst.
    repeat split; try assumption. rewrite He. unfold depsOf.
    rewrite Hnav, Hst. reflexivity.
  - destruct (runCleanup_inPlace _ _ _ Hwf Hin) as [Hs Hn'].
    apply effect_inPlace; [exact Hs |].
    rewrite Hn'. destruct Hin as (_ & Hn & _). exact Hn.
Qed.

Lemma renderAll_inPlace reg0 r rs :
  wellFormed reg0 -> inPlace reg0 (lastRender r rs) (renderAll r rs reg0).
Proof.
  intros Hwf. unfold renderAll, lastRender.
  pose proof (commit_first reg0 r) as H.
  revert H. generalize (commit None r reg0). revert r.
  induction rs as [| r' rs IH]; intros r s Hin; [exact Hin |].
  cbn [foldl]. rewrite last_cons_default. apply IH.
  apply (commit_next _ r); assumption.
Qed.

Lemma effect_subscribes r reg :
  nav_addListener (r_navigation r) = true -> is_Some (effect r reg).1.
Proof. intros H. unfold effect. rewrite H. cbn. eauto. Qed.

Lemma renderAll_subscribed reg0 r rs :
  Forall (fun r' => nav_addListener (r_navigation r') = true) (r :: rs) ->
  is_Some (eff_cleanup (renderAll r rs reg0).1).
Proof.
  intros Hall. apply Forall_cons in Hall as [Hr Hrs].
  unfold renderAll.
  assert (H : is_Some (eff_cleanup (commit None r reg0).1))
    by (apply effect_subscribes; exact Hr).
  revert H. generalize (commit None r reg0).
  induction Hrs as [| r' rs Hr' _ IH]; intros s Hs; [exact Hs |].
  cbn [foldl]. apply IH. unfold commit. case_decide; [exact Hs |].
  apply effect_subscribes. exact Hr'.
Qed.

(** X8: however often the navigator is rendered again, its effect leaves
    the registrations of others as they were and has at most one listener
    of its own registered, behind them: the one for the navigation object,
    index and key of the latest render.  Where every render found
    [navigation.addListener], that listener is registered. *)
Theorem effect_follows_the_renders (r : Render) (rs : list Render)
    (reg : Registry) :
  wellFormed reg ->
  eff_deps (renderAll r rs reg).1 = depsOf (lastRender r rs)
  /\ match eff_cleanup (renderAll r rs reg).1 with
     | Some id =>
         subscriptions (renderAll r rs reg).2
         = subscriptions reg ++
           [{| sub_navigation := nav_id (r_navigation (lastRender r rs));
               sub_id := id;
               sub_listener := StackTabPress (r_state (lastRender r rs)) |}]
     | None => subscriptions (renderAll r rs reg).2 = subscriptions reg
     end
  /\ (Forall (fun r' => nav_addListener (r_navigation r') = true) (r :: rs) ->
      is_Some (eff_cleanup (renderAll r rs reg).1)).
Proof.
  intros Hwf. destruct (renderAll_inPlace reg r rs Hwf) as (Hd & _ & Hc).
  split; [exact Hd |]. split; [| apply renderAll_subscribed].
  destruct (eff_cleanup (renderAll r rs reg).1); [apply Hc | exact Hc].
Qed.

Lemma effect_follows_the_renders_witness :
  subscriptions (renderAll firstRender laterRenders busyRegistry).2
  = subscriptions busyRegistry ++
    [{| sub_navigation := 8; sub_id := 4;
        sub_listener := StackTabPress {| key := "stack-1"; index := 1 |} |}].
Proof.
  pose proof (effect_follows_the_renders firstRender laterRenders
                busyRegistry) as H.
  assert (Hwf : wellFormed busyRegistry) by (repeat constructor).
  exact (proj1 (proj2 (H Hwf))).
Defined.

(** X9: unmounting takes the navigator's listener out again: after any
    renders, the registrations are those from before the navigator was
    mounted. *)
Theorem unmount_removes_the_listener (r : Render) (rs : list Render)
    (reg : Registry) :
  wellFormed reg ->
  subscriptions (unmount (renderAll r rs reg)) = subscriptions reg.
Proof.
  intros Hwf. unfold unmount.
  pose proof (renderAll_inPlace reg r rs Hwf) as Hin.
  exact (proj1 (runCleanup_inPlace reg _ _ Hwf Hin)).
Qed.

Lemma unmount_removes_the_listener_witness :
  subscriptions (unmount (renderAll firstRender laterRenders busyRegistry))
  = subscriptions busyRegistry.
Proof.
  apply (unmount_removes_the_listener firstRender laterRenders busyRegistry).
  repeat constructor.
Defined.

(** X10: after any renders, a tab press emitted on the navigation object of
    the latest render is decided with the index and key of that render:
    with the other listeners [pre] registered there before the navigator
    was mounted, the next frame dispatches pop-to-top for the latest key
    exactly when the latest index is above 0, the navigator is focused
    when its listener runs and no listener prevents the default. *)
Theorem tabPress_after_renders (popToTop : gmap string Val) (r : Render)
    (rs : list Render) (reg : Registry) (pre : list UserListener)
    (w : World) :
  wellFormed reg ->
  Forall (fun r' => nav_addListener (r_navigation r') = true) (r :: rs) ->
  listenersOf (nav_id (r_navigation (lastRender r rs))) reg = User <$> pre ->
  frames w = [] ->
  dispatched
    (runFrame popToTop
       (emit (listenersOf (nav_id (r_navigation (lastRender r rs)))
                (renderAll r rs reg).2) w))
  = dispatched w ++
    (if resets pre (r_state (lastRender r rs)) [] w
     then [resetAction popToTop (r_state (lastRender r rs))] else []).
Proof.
  intros Hwf Hall Hpre Hq.
  destruct (renderAll_inPlace reg r rs Hwf) as (_ & _ & Hc).
  destruct (renderAll_subscribed reg r rs Hall) as [id Hid].
  rewrite Hid in Hc. destruct Hc as [_ Hc].
  unfold listenersOf in *. rewrite Hc, filter_app, fmap_app, Hpre.
  rewrite filter_cons_True, filter_nil by reflexivity.
  apply (tabPress_then_frame popToTop pre _ [] w Hq).
Qed.

Lemma tabPress_after_renders_witness :
  dispatched
    (runFrame popToTopAction
       (emit (listenersOf 8 (renderAll firstRender laterRenders busyRegistry).2)
          idleWorld))
  = [resetAction popToTopAction latestStack].
Proof.
  apply (tabPress_after_renders popToTopAction firstRender laterRenders
           busyRegistry [] idleWorld).
  - repeat constructor.
  - repeat constructor.
  - reflexivity.
  - reflexivity.
Defined.

End EffectFacts.

(** ** Further data contracts *)

Module StackTypesMoreFacts.
Import Ts TsFacts StackTypes StackTypesMore.

Lemma get_via v n path x : get v [n] = Some x -> get v (n :: path) = get x path.
Proof. intros H. rewrite get_cons, H. reflexivity. Qed.

Lemma layout_numbers x :
  has_type Layout x = true ->
  exists w h : Z, get x ["width"] = Some (VNum w)
                  /\ get x ["height"] = Some (VNum h).
Proof.
  intros H.
  destruct (required_number _ _ "width" H eq_refl) as [w Hw].
  destruct (required_number _ _ "height" H eq_refl) as [h Hh].
  eauto.
Qed.

Lemma optional_layout_member ms v x n :
  get v ["layouts"] = Some x ->
  has_type (TObject ms) x = true ->
  find_member n ms = Some (true, Layout) ->
  optional_layout v ["layouts"; n].
Proof.
  intros Hx Ht Hm. unfold optional_layout. cbn [app].
  rewrite !(get_via _ _ _ _ Hx).
  destruct (has_type_optional _ _ _ _ Ht Hm) as [H | [H | (y & Hy & Hl)]];
    [tauto | tauto |].
  right; right. destruct (layout_numbers _ Hl) as (w & h & Hw & Hh).
  exists w, h. rewrite !(get_via _ _ _ _ Hy). tauto.
Qed.

Lemma accepts_one_param P R args :
  resolve (TFun [req "props" P] R) = TFun [req "props" P] R ->
  accepts (TFun [req "props" P] R) args = true <->
  exists p, args = [p] /\ has_type P p = true.
Proof.
  intros Hr. unfold accepts. rewrite Hr. unfold req.
  destruct args as [| p [| q args]]; cbn [accepts_params].
  - split; [discriminate | intros (p & Hp & _); discriminate].
  - rewrite andb_true_r, orb_false_r.
    split; [intros H; eauto |].
    intros (p' & Hp & Ht). injection Hp as ->. exact Ht.
  - rewrite andb_false_r.
    split; [discriminate | intros (p' & Hp & _); discriminate].
Qed.

(** X11: the header style interpolator takes one argument, the props, and
    returns the interpolated header style.  The props have the members
    [current], [next] and [layouts] and no other.  In every value of the
    props type [current.progress] is a node holding a number, [next] is
    missing, undefined or has such a [progress], [layouts.screen] has a
    numeric [width] and [height], and [layouts.title] and
    [layouts.leftLabel] are each missing, undefined or a layout with
    numeric [width] and [height].  The style has the five members
    [leftLabelStyle], [leftButtonStyle], [rightButtonStyle], [titleStyle]
    and [backgroundStyle], each optional. *)
Theorem header_interpolator_contract (v : Val) (args : list Val) :
  (accepts StackHeaderStyleInterpolator args = true <->
     exists p, args = [p] /\ has_type StackHeaderInterpolationProps p = true)
  /\ result_of StackHeaderStyleInterpolator = Some StackHeaderInterpolatedStyle
  /\ member_names StackHeaderInterpolationProps = ["current"; "next"; "layouts"]
  /\ members_of StackHeaderInterpolatedStyle
     = [opt "leftLabelStyle" TAny; opt "leftButtonStyle" TAny;
        opt "rightButtonStyle" TAny; opt "titleStyle" TAny;
        opt "backgroundStyle" TAny]
  /\ (has_type StackHeaderInterpolationProps v = true ->
      (exists p : Z, get v ["current"; "progress"] = Some (VNode (VNum p)))
      /\ (get v ["next"] = None \/ get v ["next"] = Some VUndefined
          \/ exists p : Z, get v ["next"; "progress"] = Some (VNode (VNum p)))
      /\ (exists w h : Z,
            get v ["layouts"; "screen"; "width"] = Some (VNum w)
            /\ get v ["layouts"; "screen"; "height"] = Some (VNum h))
      /\ optional_layout v ["layouts"; "title"]
      /\ optional_layout v ["layouts"; "leftLabel"]).
Proof.
  split; [apply accepts_one_param; reflexivity |].
  split; [reflexivity |]. split; [reflexivity |]. split; [reflexivity |].
  intros Hv.
  destruct (has_type_required _ _ "current" _ Hv eq_refl) as (c & Hc & Hct).
  destruct (has_type_required _ _ "progress" _ Hct eq_refl) as (cp & Hcp & Hn).
  apply has_type_node_number in Hn as [p ->].
  destruct (has_type_required _ _ "layouts" _ Hv eq_refl) as (l & Hl & Hlt).
  destruct (has_type_required _ _ "screen" _ Hlt eq_refl) as (sc & Hsc & Hst).
  destruct (layout_numbers _ Hst) as (w & h & Hw & Hh).
  split; [exists p; exact (get_step _ _ _ _ _ Hc Hcp) |]. split.
  { destruct (has_type_optional _ _ "next" _ Hv eq_refl)
      as [H | [H | (x & Hx & Ht)]]; [tauto | tauto |].
    right; right.
    destruct (has_type_required _ _ "progress" _ Ht eq_refl)
      as (y & Hy & Hyn).
    apply has_type_node_number in Hyn as [q ->].
    exists q. exact (get_step _ _ _ _ _ Hx Hy). }
  split.
  { exists w, h. split.
    - exact (get_step _ _ _ _ _ Hl (get_step _ _ _ _ _ Hsc Hw)).
    - exact (get_step _ _ _ _ _ Hl (get_step _ _ _ _ _ Hsc Hh)). }
  split.
  - exact (optional_layout_member _ _ _ "title" Hl Hlt eq_refl).
  - exact (optional_layout_member _ _ _ "leftLabel" Hl Hlt eq_refl).
Qed.

Lemma header_interpolator_contract_witness :
  optional_layout someHeaderProps ["layouts"; "title"]
  /\ exists w h : Z,
       get someHeaderProps ["layouts"; "screen"; "width"] = Some (VNum w)
       /\ get someHeaderProps ["layouts"; "screen"; "height"] = Some (VNum h).
Proof.
  pose proof (header_interpolator_contract someHeaderProps [])
    as (_ & _ & _ & _ & H).
  destruct (H eq_refl) as (_ & _ & Hs & Ht & _).
  split; [exact Ht | exact Hs].
Defined.

Lemma partial_names ms : (members_of (Partial (TObject ms))).*1 = ms.*1.
Proof.
  cbn [Partial members_of]. induction ms as [| m ms IH]; [reflexivity |].
  cbn. rewrite <- IH. reflexivity.
Qed.

Lemma members_partial ms fs :
  members_ok ms fs = true ->
  members_ok (members_of (Partial (TObject ms))) fs = true.
Proof.
  induction ms as [| [n [o t]] ms IH]; [reflexivity |].
  rewrite members_ok_cons. intros Hv. apply andb_true_iff in Hv as [Hh Ht].
  change (members_of (Partial (TObject ((n, (o, t)) :: ms))))
    with ((n, (true, t)) :: members_of (Partial (TObject ms))).
  rewrite members_ok_cons. apply andb_true_iff. split; [| apply IH; exact Ht].
  destruct (fs !! n) as [x |]; [| reflexivity].
  destruct o; [exact Hh |].
  rewrite orb_false_r in Hh. rewrite Hh. reflexivity.
Qed.

(** An object that has the members of a type with a required member
    shares a member with it. *)
Lemma required_shares ms fs :
  ms <> [] -> weak_members ms = false -> members_ok ms fs = true ->
  existsb (has_field fs) ms.*1 = true.
Proof.
  intros Hne Hw Hv.
  assert (Hf : forallb (fun m => m.2.1) ms = false)
    by (destruct ms; [contradiction | exact Hw]).
  clear Hne Hw. induction ms as [| [n [o t]] ms IH]; [discriminate |].
  rewrite members_ok_cons in Hv. apply andb_true_iff in Hv as [Hh Ht].
  cbn [forallb fst snd] in Hf. cbn [fmap list_fmap fst existsb].
  apply orb_true_iff. destruct o.
  - right. apply IH; assumption.
  - left. unfold has_field. destruct (fs !! n); [reflexivity | discriminate].
Qed.

(** [Partial] only drops requirements. *)
Lemma partial_weakens ms v :
  has_type (TObject ms) v = true -> has_type (Partial (TObject ms)) v = true.
Proof.
  intros Hv.
  destruct (has_type_object_inv _ _ Hv) as (fs & Hf & Hfs & Hm & _).
  change (Partial (TObject ms))
    with (TObject (members_of (Partial (TObject ms)))).
  rewrite (has_type_by_fields _ _ _ Hf), has_type_object.
  rewrite (members_partial _ _ Hm), andb_true_r.
  rewrite has_type_object in Hfs. apply andb_true_iff in Hfs as [Hw _].
  unfold weak_ok in *. rewrite partial_names.
  destruct (weak_members (members_of (Partial (TObject ms)))) eqn:Hp;
    [| reflexivity].
  cbn [negb orb]. destruct (weak_members ms) eqn:Hwm; [exact Hw |].
  assert (Hne : ms <> []) by (intros ->; discriminate).
  unfold shares. rewrite (required_shares _ _ Hne Hwm Hm), orb_true_r.
  reflexivity.
Qed.

Lemma existsb_eqb_false name names :
  existsb (String.eqb name) names = false -> name ∉ names.
Proof.
  induction names as [| n names IH]; cbn; [intros _; apply not_elem_of_nil |].
  intros H. apply orb_false_iff in H as [Hn Hr].
  apply not_elem_of_cons. split; [| apply IH; exact Hr].
  apply String.eqb_neq. exact Hn.
Qed.

(** An object without any of the members that a type declares, all of
    them optional, has the members of that type. *)
Lemma optional_outside_members names ms fs :
  optional_outside names ms = true ->
  (forall k, k ∉ names -> fs !! k = None) ->
  members_ok ms fs = true.
Proof.
  intros Ho Hfs. induction ms as [| [n [o t]] ms IH]; [reflexivity |].
  cbn [optional_outside forallb fst snd] in Ho.
  apply andb_true_iff in Ho as [Hm Ho]. apply andb_true_iff in Hm as [-> Hn].
  apply negb_true_iff, existsb_eqb_false in Hn.
  rewrite members_ok_cons, (Hfs n Hn). apply IH. exact Ho.
Qed.

Lemma resolve_options :
  resolve StackNavigationOptions
  = TInter [TObject (members_of (resolve StackHeaderOptions));
            TObject (members_of (Partial TransitionPreset));
            TObject (members_of (resolve StackNavigationOwnOptions))].
Proof. reflexivity. Qed.

(** An object is a value of [StackNavigationOptions] when it is empty or
    sets one of the declared options, and has the members of the three
    parts. *)
Lemma has_type_options fs :
  has_type (resolve StackNavigationOptions) (VObject fs)
  = shares optionNames fs
    && members_ok (members_of (resolve StackHeaderOptions)) fs
    && members_ok (members_of (Partial TransitionPreset)) fs
    && members_ok (members_of (resolve StackNavigationOwnOptions)) fs.
Proof.
  rewrite resolve_options. unfold has_type.
  rewrite has_type_at_inter. cbn [forallb].
  rewrite !has_type_at_object. cbn [negb orb andb].
  rewrite andb_true_r, !andb_assoc. reflexivity.
Qed.

(** X12: a transition preset has all of [gestureDirection],
    [transitionSpec], [cardStyleInterpolator] and [headerStyleInterpolator],
    and an object that is a preset and has no further members is, as it
    is, a value of [StackNavigationOptions]: a preset can be given as the
    options of a screen. *)
Theorem preset_is_valid_options (fs : gmap string Val) :
  has_type TransitionPreset (VObject fs) = true ->
  (forall k, k ∉ member_names TransitionPreset -> fs !! k = None) ->
  Forall (fun k => is_Some (fs !! k))
    ["gestureDirection"; "transitionSpec"; "cardStyleInterpolator";
     "headerStyleInterpolator"]
  /\ has_type (resolve StackNavigationOptions) (VObject fs) = true.
Proof.
  intros Hp Hfs. split.
  - repeat constructor.
    + destruct (has_type_required _ _ "gestureDirection" _ Hp eq_refl)
        as (x & Hx & _). rewrite get_field in Hx. eauto.
    + destruct (has_type_required _ _ "transitionSpec" _ Hp eq_refl)
        as (x & Hx & _). rewrite get_field in Hx. eauto.
    + destruct (has_type_required _ _ "cardStyleInterpolator" _ Hp eq_refl)
        as (x & Hx & _). rewrite get_field in Hx. eauto.
    + destruct (has_type_required _ _ "headerStyleInterpolator" _ Hp eq_refl)
        as (x & Hx & _). rewrite get_field in Hx. eauto.
  - rewrite has_type_options.
    rewrite (optional_outside_members (member_names TransitionPreset)
               (members_of (resolve StackHeaderOptions)) fs)
      by (reflexivity || exact Hfs).
    rewrite (optional_outside_members (member_names TransitionPreset)
               (members_of (resolve StackNavigationOwnOptions)) fs)
      by (reflexivity || exact Hfs).
    destruct (has_type_object_inv _ _ Hp) as (fs' & [= <-] & _ & Hm & _).
    assert (Hq : members_ok (members_of (Partial TransitionPreset)) fs
                 = true) by exact (members_partial _ _ Hm).
    rewrite Hq, !andb_true_r.
    apply shares_spec. right. exists "gestureDirection".
    split;
      [exact (bool_decide_eq_true_1 ("gestureDirection" ∈ optionNames)
                eq_refl) |].
    destruct (has_type_required _ _ "gestureDirection" _ Hp eq_refl)
      as (x & Hx & _). rewrite get_field in Hx. eauto.
Qed.

Lemma preset_is_valid_options_witness :
  has_type (resolve StackNavigationOptions) (VObject somePreset) = true.
Proof.
  apply (preset_is_valid_options somePreset eq_refl).
  intros k Hk. unfold somePreset.
  change (k ∉ ["gestureDirection"; "transitionSpec";
               "cardStyleInterpolator"; "headerStyleInterpolator"]) in Hk.
  rewrite !not_elem_of_cons in Hk. destruct Hk as (H1 & H2 & H3 & H4 & _).
  rewrite !lookup_insert_ne by congruence.
  rewrite lookup_singleton_ne by congruence. reflexivity.
Defined.

Lemma has_type_strlit_iff s v : has_type (TStrLit s) v = true <-> v = VStr s.
Proof.
  split; [apply has_type_strlit |]. intros ->.
  unfold has_type. cbn. apply String.eqb_refl.
Qed.

(** X13: the [mode] that a header receives is ['float'] or ['screen'] and
    nothing else, while the [headerMode] of the navigator may also be
    ['none']: a header is never asked to render in mode ['none']. *)
Theorem header_mode_values (v : Val) :
  (has_type (member_type StackHeaderProps "mode") v = true <->
     v = VStr "float" \/ v = VStr "screen")
  /\ (has_type (member_type StackNavigationConfig "headerMode") v = true <->
      v = VStr "float" \/ v = VStr "screen" \/ v = VStr "none")
  /\ (has_type (member_type StackHeaderProps "mode") v = true ->
      has_type (member_type StackNavigationConfig "headerMode") v = true)
  /\ has_type (member_type StackHeaderProps "mode") (VStr "none") = false.
Proof.
  change (member_type StackHeaderProps "mode")
    with (TUnion [TStrLit "float"; TStrLit "screen"]).
  change (member_type StackNavigationConfig "headerMode")
    with (TUnion [TStrLit "float"; TStrLit "screen"; TStrLit "none"]).
  assert (H2 : has_type (TUnion [TStrLit "float"; TStrLit "screen"]) v = true
               <-> v = VStr "float" \/ v = VStr "screen").
  { rewrite has_type_union. cbn [existsb].
    rewrite orb_false_r, orb_true_iff.
    rewrite <- !has_type_strlit_iff. reflexivity. }
  assert (H3 : has_type (TUnion [TStrLit "float"; TStrLit "screen";
                                 TStrLit "none"]) v = true
               <-> v = VStr "float" \/ v = VStr "screen" \/ v = VStr "none").
  { rewrite has_type_union. cbn [existsb].
    rewrite orb_false_r, !orb_true_iff.
    rewrite <- !has_type_strlit_iff. reflexivity. }
  split; [exact H2 |]. split; [exact H3 |]. split; [| reflexivity].
  rewrite H2, H3. tauto.
Qed.

Lemma optional_number_member (o : option Val) :
  match o with
  | Some x => has_type TNumber x || (true && is_undefined x)
  | None => true
  end = true
  <-> o = None \/ o = Some VUndefined \/ exists n : Z, o = Some (VNum n).
Proof.
  destruct o as [x |]; [| tauto].
  destruct x; unfold has_type; cbn; split; try discriminate; eauto;
    intros [H | [H | [n H]]]; discriminate.
Qed.

(** X14: the [safeAreaInsets] option takes any selection of [top],
    [right], [bottom] and [left]: an object is a value of it exactly when
    each of the four is missing, undefined or a number, and the object is
    empty or has at least one of the four (an object that has members but
    none of the four is refused, the type being all-optional).  In
    particular the complete insets that the card interpolator receives
    are a value of it. *)
Theorem safe_area_insets_override (fs : gmap string Val) :
  (has_type (member_type StackNavigationOwnOptions "safeAreaInsets")
     (VObject fs) = true <->
   (forall k, k ∈ ["top"; "right"; "bottom"; "left"] ->
      fs !! k = None \/ fs !! k = Some VUndefined
      \/ exists n : Z, fs !! k = Some (VNum n))
   /\ (fs = ∅
       \/ exists k, k ∈ ["top"; "right"; "bottom"; "left"]
                    /\ is_Some (fs !! k)))
  /\ (has_type (member_type StackCardInterpolationProps "insets")
        (VObject fs) = true ->
      has_type (member_type StackNavigationOwnOptions "safeAreaInsets")
        (VObject fs) = true).
Proof.
  split; [| apply partial_weakens].
  change (member_type StackNavigationOwnOptions "safeAreaInsets")
    with (TObject [opt "top" TNumber; opt "right" TNumber;
                   opt "bottom" TNumber; opt "left" TNumber]).
  rewrite has_type_object.
  change (weak_ok [opt "top" TNumber; opt "right" TNumber;
                   opt "bottom" TNumber; opt "left" TNumber] fs)
    with (shares ["top"; "right"; "bottom"; "left"] fs).
  unfold opt. rewrite !members_ok_cons. cbn [members_ok].
  rewrite andb_true_r, !andb_true_iff, !optional_number_member, shares_spec.
  split.
  - intros [Hs (Ht & Hr & Hb & Hl)]. split; [| exact Hs].
    intros k Hk. set_unfold.
    destruct Hk as [-> | [-> | [-> | [-> | []]]]]; assumption.
  - intros [H Hs]. split; [exact Hs |].
    repeat split; apply H; set_unfold; tauto.
Qed.

Lemma safe_area_insets_override_witness :
  has_type (member_type StackNavigationOwnOptions "safeAreaInsets")
    (VObject
       (<["top" := VNum 44]>
          (<["right" := VNum 0]>
             (<["bottom" := VNum 34]> {["left" := VNum 0]})))) = true.
Proof.
  apply (proj2 (safe_area_insets_override _)). reflexivity.
Defined.

Lemma header_mode_values_witness :
  has_type (member_type StackNavigationConfig "headerMode") (VStr "float")
  = true.
Proof.
  exact (proj1 (proj2 (proj2 (header_mode_values (VStr "float")))) eq_refl).
Defined.

Lemma delete_keeps_members ms (fs : gmap string Val) k :
  forallb (fun m => m.2.1) ms = true ->
  members_ok ms fs = true -> members_ok ms (delete k fs) = true.
Proof.
  intros Ho Hv. induction ms as [| [n [o t]] ms IH]; [reflexivity |].
  cbn [forallb fst snd] in Ho. apply andb_true_iff in Ho as [-> Ho].
  rewrite members_ok_cons in Hv. apply andb_true_iff in Hv as [Hh Ht].
  rewrite members_ok_cons. apply andb_true_iff.
  split; [| apply IH; assumption].
  destruct (decide (k = n)) as [-> | Hne].
  - rewrite lookup_delete_eq. reflexivity.
  - rewrite lookup_delete_ne by exact Hne. exact Hh.
Qed.

(** An object with declared options only is empty or sets one of them. *)
Lemma declared_only_shares (fs : gmap string Val) :
  (forall k, is_Some (fs !! k) -> k ∈ optionNames) ->
  shares optionNames fs = true.
Proof.
  intros H. apply shares_spec.
  destruct (map_to_list fs) as [| [k x] l] eqn:E.
  - left. apply map_to_list_empty_iff. exact E.
  - right. exists k.
    assert (Hk : fs !! k = Some x).
    { apply elem_of_map_to_list. rewrite E. left. }
    split; [apply H |]; eauto.
Qed.

(** X15: no option of [StackNavigationOptions] is required.  The empty
    object is a value of the type; among the objects that set none of the
    declared options it is the only one (an object that has members but
    no declared option is refused, the type being all-optional); and from
    a value of the type that has no members besides declared options any
    member may be taken out: what is left is again a value of the type.
    This covers the header options, the members of a transition preset,
    and the options the type declares itself. *)
Theorem every_option_is_optional (fs : gmap string Val) (k : string) :
  has_type (resolve StackNavigationOptions) (VObject ∅) = true
  /\ ((forall k', k' ∈ optionNames -> fs !! k' = None) ->
      has_type (resolve StackNavigationOptions) (VObject fs) = true <->
      fs = ∅)
  /\ (has_type (resolve StackNavigationOptions) (VObject fs) = true ->
      (forall k', is_Some (fs !! k') -> k' ∈ optionNames) ->
      has_type (resolve StackNavigationOptions) (VObject (delete k fs))
      = true).
Proof.
  split; [reflexivity |]. split.
  - intros Hnone. split; [| intros ->; reflexivity].
    rewrite has_type_options, !andb_true_iff.
    intros (((Hs & _) & _) & _). apply shares_spec in Hs.
    destruct Hs as [H | (n & Hn & [x Hx])]; [exact H |].
    rewrite (Hnone n Hn) in Hx. discriminate.
  - rewrite !has_type_options, !andb_true_iff.
    intros (((_ & Hh) & Hp) & Ho) Hdecl. repeat split.
    + apply declared_only_shares. intros k' [x Hx].
      apply lookup_delete_Some in Hx as [_ Hx]. apply Hdecl. eauto.
    + apply delete_keeps_members; [reflexivity | exact Hh].
    + apply delete_keeps_members; [reflexivity | exact Hp].
    + apply delete_keeps_members; [reflexivity | exact Ho].
Qed.

Lemma every_option_is_optional_witness :
  has_type (resolve StackNavigationOptions)
    (VObject (delete "title" someOptions)) = true
  /\ has_type (resolve StackNavigationOptions)
       (VObject {["unknown" := VNum 1]}) <> true.
Proof.
  split.
  - apply (proj2 (proj2 (every_option_is_optional someOptions "title")));
      [reflexivity |].
    intros k' [x Hx]. unfold someOptions in Hx.
    apply lookup_insert_Some in Hx as [[<- _] | [_ Hx]].
    + exact (bool_decide_eq_true_1 ("title" ∈ optionNames) eq_refl).
    + apply lookup_singleton_Some in Hx as [<- _].
      exact (bool_decide_eq_true_1 ("headerShown" ∈ optionNames) eq_refl).
  - intros H.
    apply (proj1 (proj2 (every_option_is_optional
                           {["unknown" := VNum 1]} "title"))) in H.
    + apply (f_equal (lookup "unknown")) in H. discriminate H.
    + intros k' Hk. apply lookup_singleton_None. intros <-.
      revert Hk.
      exact (bool_decide_eq_false_1 ("unknown" ∈ optionNames) eq_refl).
Defined.

End StackTypesMoreFacts.
